(** * automate_apsr.js: a shallow embedding and its properties

    The script drives a paginated result listing in a browser: it visits
    pages, reads one record per result row (two of the fields only after
    a click and a fixed delay), stops when the requested number of records
    is reached or no next-page link is held, and then logs, exports a CSV
    file and prints the diagnostics.

    The embedding follows the source function by function.  JavaScript
    strings are sequences of UTF-16 code units; the closure variables of
    [automate_aspr] form an explicit state record that also carries the
    chronological list of observable actions (console output, clicks,
    delays, the file download); a [TypeError] raised by a property access
    on [null] is an explicit outcome.  The document is an input: what the
    queries of the script return on each page and for each row. *)

From Stdlib Require Import List NArith Arith Bool Lia.
From Stdlib Require Import Ascii String DecimalString.
Import ListNotations.

Set Implicit Arguments.

(** ** JavaScript strings *)

Definition JSString := list N.

(** An ASCII literal of the source as a sequence of code units. *)
Definition js (s : string) : JSString :=
  map N_of_ascii (list_ascii_of_string s).

(** [String(n)] for a non-negative integer. *)
Definition Number_toString (n : nat) : JSString :=
  js (NilEmpty.string_of_uint (Nat.to_uint n)).

Definition jseqb (s t : JSString) : bool :=
  if list_eq_dec N.eq_dec s t then true else false.

(** [Array.prototype.join]. *)
Fixpoint join (sep : JSString) (parts : list JSString) : JSString :=
  match parts with
  | [] => []
  | [p] => p
  | p :: rest => p ++ sep ++ join sep rest
  end.

(** ECMAScript WhiteSpace and LineTerminator code units, the ones
    [String.prototype.trim] strips. *)
Definition is_white_space (c : N) : bool :=
  ((0x09 <=? c) && (c <=? 0x0d) || (c =? 0x20) || (c =? 0xa0) || (c =? 0x1680)
   || (0x2000 <=? c) && (c <=? 0x200a) || (c =? 0x2028) || (c =? 0x2029)
   || (c =? 0x202f) || (c =? 0x205f) || (c =? 0x3000) || (c =? 0xfeff))%N.

Fixpoint trim_start (s : JSString) : JSString :=
  match s with
  | [] => []
  | c :: rest => if is_white_space c then trim_start rest else s
  end.

Definition trim_end (s : JSString) : JSString := rev (trim_start (rev s)).

Definition trim (s : JSString) : JSString := trim_end (trim_start s).

(** ** [String.prototype.replace] with a literal global pattern *)

Fixpoint starts_with (pat s : JSString) : bool :=
  match pat, s with
  | [], _ => true
  | _ :: _, [] => false
  | p :: pat', c :: s' => (p =? c)%N && starts_with pat' s'
  end.

(** One left-to-right scan: at a position where the pattern matches, the
    replacement is emitted and the matched units are skipped, so matches
    never overlap and the replacement text is not scanned again.  [skip]
    counts the units of the current match still to be passed over.  The
    patterns of the source are non-empty literals. *)
Fixpoint replace_scan (pat rep : JSString) (skip : nat) (s : JSString) : JSString :=
  match s with
  | [] => []
  | c :: s' =>
      match skip with
      | S k => replace_scan pat rep k s'
      | O =>
          if starts_with pat s
          then rep ++ replace_scan pat rep (pred (List.length pat)) s'
          else c :: replace_scan pat rep 0 s'
      end
  end.

Definition replace_all (pat rep s : JSString) : JSString :=
  replace_scan pat rep 0 s.

(** The pattern occurs somewhere in the string. *)
Fixpoint occurs (pat s : JSString) : bool :=
  starts_with pat s ||
  match s with
  | [] => false
  | _ :: s' => occurs pat s'
  end.

(** ** [NormalizeEncoding] (lines 212-245) *)

(** The chain of [.replace(/../g, '..')] calls, in source order.  Every
    pattern is U+221A followed by one more code unit. *)
Definition encoding_repairs : list (JSString * JSString) :=
  [ ([0x221a; 0xf2],   [0xd8])    (* Ø *)
  ; ([0x221a; 0xb6],   [0xe6])    (* æ *)
  ; ([0x221a; 0xb6],   [0xe5])    (* å *)
  ; ([0x221a; 0x220f], [0xc5])    (* Å *)
  ; ([0x221a; 0xba],   [0xf8])    (* ø *)
  ; ([0x221a; 0xa7],   [0xdf])    (* ß *)
  ; ([0x221a; 0xa9],   [0xe9])    (* é *)
  ; ([0x221a; 0xa8],   [0xe8])    (* è *)
  ; ([0x221a; 0xee],   [0xf6])    (* ö *)
  ; ([0x221a; 0xf1],   [0xfc])    (* ü *)
  ; ([0x221a; 0xc4],   [0xe4])    (* ä *)
  ; ([0x221a; 0xe1],   [0xe1])    (* á *)
  ; ([0x221a; 0xed],   [0xed])    (* í *)
  ; ([0x221a; 0xf3],   [0xf3])    (* ó *)
  ; ([0x221a; 0xfa],   [0xfa])    (* ú *)
  ; ([0x221a; 0xe0],   [0xe0])    (* à *)
  ; ([0x221a; 0xf9],   [0xf9])    (* ù *)
  ; ([0x221a; 0xe2],   [0xe2])    (* â *)
  ; ([0x221a; 0xea],   [0xea])    (* ê *)
  ; ([0x221a; 0xee],   [0xee])    (* î *)
  ; ([0x221a; 0xf4],   [0xf4])    (* ô *)
  ; ([0x221a; 0xfb],   [0xfb])    (* û *)
  ; ([0x221a; 0xeb],   [0xeb])    (* ë *)
  ; ([0x221a; 0xef],   [0xef])    (* ï *)
  ; ([0x221a; 0xff],   [0xff])    (* ÿ *)
  ; ([0x221a; 0xe6],   [0xe6])    (* æ *)
  ; ([0x221a; 0xc6],   [0xc6])    (* Æ *)
  ; ([0x221a; 0xd8],   [0xd8])    (* Ø *)
  ; ([0x221a; 0xf6],   [0xf6])    (* ö *)
  ]%N.

Definition apply_rules (rules : list (JSString * JSString)) (s : JSString) : JSString :=
  fold_left (fun t rule => replace_all (fst rule) (snd rule) t) rules s.

(** A rule is shadowed when an earlier rule has the same pattern. *)
Fixpoint remove_shadowed (seen : list JSString) (rules : list (JSString * JSString))
  : list (JSString * JSString) :=
  match rules with
  | [] => []
  | rule :: rest =>
      if existsb (jseqb (fst rule)) seen
      then remove_shadowed seen rest
      else rule :: remove_shadowed (fst rule :: seen) rest
  end.

(** ** The document, as the queries of the script see it *)

(** A reference to an element the script clicks. *)
Definition Element := nat.

(** The title link of a row: its [textContent] and its [href]. *)
Record Anchor := { anchor_text : JSString; anchor_href : JSString }.

(** One result row, by what each query on it returns.  A query that finds
    nothing returns [null], here [None]. *)
Record Row := {
  (** [querySelector('.title h3 a.part-link')] *)
  title_link : option Anchor;
  (** [textContent] of each [li.author a.more-by-this-author] *)
  author_links : list JSString;
  (** [textContent] of [span.date] *)
  date_span : option JSString;
  (** [textContent] of [a.listing-citation-modal span.number] *)
  citation_number : option JSString;
  (** the button whose [onclick] starts with [toggleViewHide(this, 'abstract] *)
  abstract_toggle : option Element;
  (** [textContent] of the row's [.abstract[data-abstract-type="normal"]]
      when the delay after the click on the toggle has elapsed *)
  abstract_region : option JSString;
  (** [querySelector('.citation .listing-citation-modal')] *)
  citation_dialog_link : option Element;
  (** what the click on that link and the delay do to the [href] of the
      document's first [a[href^="/core/services/aop-cambridge-core/download/cited-by"]] *)
  citation_dialog_effect : option JSString -> option JSString
}.

(** The region [#maincontent] of a loaded page. *)
Record ResultsView := {
  (** [querySelector('a[aria-label="Next page"]')] *)
  next_page_anchor : option Element;
  (** [querySelectorAll('.representation.overview.search')] *)
  result_rows : list Row
}.

(** [document.querySelector('#maincontent')]. *)
Definition Document := option ResultsView.

(** ** Records, observable actions and the state of a run *)

(** An object literal with string values: its properties in creation order. *)
Definition JSObject := list (JSString * JSString).

Definition Object_keys (o : JSObject) : list JSString := map fst o.
Definition Object_values (o : JSObject) : list JSString := map snd o.

Inductive Action :=
| ConsoleClear
| ConsoleLog (line : JSString)
  (** [console.log(JSON.stringify(data, null, 3))], by the value serialized *)
| ConsoleLogRecords (data : list JSObject)
| ConsoleWarn (line : JSString)
| Click (target : Element)
| Delay (ms : nat)
  (** the download of a [text/csv] blob under a file name *)
| SaveFile (filename content : JSString).

(** The variables [automate_aspr] closes over (lines 6-13), the one piece of
    the document that is read globally, and the actions so far, oldest
    first. *)
Record State := {
  aspr_data : list JSObject;
  next_page_link : option Element;
  page_count : nat;
  errors : list JSString;
  warnings : list JSString;
  cited_by_download : option JSString;
  actions : list Action
}.

Definition base_load_buffer_ms : nat := 2500.

Definition initial_state (overlay : option JSString) : State :=
  {| aspr_data := []; next_page_link := None; page_count := 0;
     errors := []; warnings := []; cited_by_download := overlay; actions := [] |}.

Definition with_aspr_data (v : list JSObject) (st : State) : State :=
  {| aspr_data := v; next_page_link := next_page_link st; page_count := page_count st;
     errors := errors st; warnings := warnings st;
     cited_by_download := cited_by_download st; actions := actions st |}.

Definition with_next_page_link (v : option Element) (st : State) : State :=
  {| aspr_data := aspr_data st; next_page_link := v; page_count := page_count st;
     errors := errors st; warnings := warnings st;
     cited_by_download := cited_by_download st; actions := actions st |}.

Definition with_page_count (v : nat) (st : State) : State :=
  {| aspr_data := aspr_data st; next_page_link := next_page_link st; page_count := v;
     errors := errors st; warnings := warnings st;
     cited_by_download := cited_by_download st; actions := actions st |}.

Definition with_errors (v : list JSString) (st : State) : State :=
  {| aspr_data := aspr_data st; next_page_link := next_page_link st;
     page_count := page_count st; errors := v; warnings := warnings st;
     cited_by_download := cited_by_download st; actions := actions st |}.

Definition with_warnings (v : list JSString) (st : State) : State :=
  {| aspr_data := aspr_data st; next_page_link := next_page_link st;
     page_count := page_count st; errors := errors st; warnings := v;
     cited_by_download := cited_by_download st; actions := actions st |}.

Definition with_cited_by_download (v : option JSString) (st : State) : State :=
  {| aspr_data := aspr_data st; next_page_link := next_page_link st;
     page_count := page_count st; errors := errors st; warnings := warnings st;
     cited_by_download := v; actions := actions st |}.

Definition with_actions (v : list Action) (st : State) : State :=
  {| aspr_data := aspr_data st; next_page_link := next_page_link st;
     page_count := page_count st; errors := errors st; warnings := warnings st;
     cited_by_download := cited_by_download st; actions := v |}.

(** ** Computations: state passing, with [TypeError] as an outcome *)

Inductive Outcome (A : Type) : Type :=
| Returned (a : A) (st : State)
  (** a property of [null] was read; the state is the one at the throw *)
| Threw (st : State).

Arguments Threw {A} st.

Definition outcome_state {A} (o : Outcome A) : State :=
  match o with
  | Returned _ st => st
  | Threw st => st
  end.

Definition M (A : Type) : Type := State -> Outcome A.

Definition ret {A} (a : A) : M A := fun st => Returned a st.

Definition bind {A B} (m : M A) (k : A -> M B) : M B :=
  fun st =>
    match m st with
    | Returned a st' => k a st'
    | Threw st' => Threw st'
    end.

Notation "x <- m ;; k" := (bind m (fun x => k))
  (at level 61, m at next level, right associativity).
Notation "m ;; k" := (bind m (fun _ => k))
  (at level 61, right associativity).

Definition get : M State := fun st => Returned st st.

Definition modify (f : State -> State) : M unit := fun st => Returned tt (f st).

(** Reading a property of the result of a query. *)
Definition deref {A} (queried : option A) : M A :=
  match queried with
  | Some element => ret element
  | None => fun st => Threw st
  end.

Definition emit (a : Action) : M unit :=
  modify (fun st => with_actions (actions st ++ [a]) st).

Definition push_error (msg : JSString) : M unit :=
  modify (fun st => with_errors (errors st ++ [msg]) st).

Definition push_warning (msg : JSString) : M unit :=
  modify (fun st => with_warnings (warnings st ++ [msg]) st).

Definition push_record (record : JSObject) : M unit :=
  modify (fun st => with_aspr_data (aspr_data st ++ [record]) st).

(** ** [ConsoleErrorsAndWarnings] (lines 170-180) *)

Definition quoted (s : JSString) : JSString := [34%N] ++ s ++ [34%N].

(** [list.forEach((m, i) => console.log(`\t<label> #${i}: ${m}`))], from index [i]. *)
Fixpoint numbered_lines (label : JSString) (i : nat) (msgs : list JSString) : list Action :=
  match msgs with
  | [] => []
  | m :: rest =>
      ConsoleLog ([9%N] ++ label ++ js " #" ++ Number_toString i ++ js ": " ++ m)
      :: numbered_lines label (S i) rest
  end.

Definition diagnostics_output (errors warnings : list JSString) : list Action :=
  (if 0 <? List.length errors
   then ConsoleLog ([10%N] ++ js "Errors:") :: numbered_lines (js "Error") 0 errors
   else [])
  ++
  (if 0 <? List.length warnings
   then ConsoleLog ([10%N] ++ js "Warnings:") :: numbered_lines (js "Warning") 0 warnings
   else []).

Definition ConsoleErrorsAndWarnings (errors warnings : list JSString) : M unit :=
  modify (fun st => with_actions (actions st ++ diagnostics_output errors warnings) st).

(** ** [DownlaodResultsAsCSV] (lines 187-209) *)

Definition csv_row (row : JSObject) : JSString :=
  join (js ",") (map quoted (Object_values row)).

Definition csv_content (first : JSObject) (jsonData : list JSObject) : JSString :=
  let headers := join (js ",") (Object_keys first) ++ [10%N] in
  let csv_rows := join [10%N] (map csv_row jsonData) in
  headers ++ csv_rows.

Definition export_output (jsonData : list JSObject) (filename : JSString) : list Action :=
  match jsonData with
  | [] => [ConsoleWarn (js "No data available to download.")]
  | first :: _ => [SaveFile filename ([0xfeff%N] ++ csv_content first jsonData)]
  end.

Definition DownlaodResultsAsCSV (jsonData : list JSObject) (filename : JSString) : M unit :=
  modify (fun st => with_actions (actions st ++ export_output jsonData filename) st).

Section Platform.

(** [String.prototype.normalize('NFC')] is the engine's; its Unicode tables
    are no part of the script, so canonical composition is a parameter. *)
Variable normalize_NFC : JSString -> JSString.

Definition NormalizeEncoding (text : JSString) : JSString :=
  apply_rules encoding_repairs (normalize_NFC (trim text)).

(** The same chain without the rules whose pattern an earlier rule has. *)
Definition NormalizeEncoding_without_shadowed (text : JSString) : JSString :=
  apply_rules (remove_shadowed [] encoding_repairs) (normalize_NFC (trim text)).

(** ** [RetrieveAbstract] (lines 111-132) *)

Definition RetrieveAbstract (row : Row) (title : JSString) : M JSString :=
  match abstract_toggle row with
  | None =>
      push_warning (js "Abstract extraction failed for " ++ quoted title ++ js ".") ;;
      ret (js "N/A")
  | Some abstract_link =>
      emit (Click abstract_link) ;;
      emit (Delay base_load_buffer_ms) ;;
      match abstract_region row with
      | None =>
          push_warning (js "Abstract not found for " ++ quoted title ++ js ".") ;;
          ret (js "N/A")
      | Some abstract_content => ret (NormalizeEncoding abstract_content)
      end
  end.

(** ** [RetrieveCitingPapersLink] (lines 140-163) *)

Definition RetrieveCitingPapersLink (row : Row) (title : JSString) : M JSString :=
  match citation_dialog_link row with
  | None =>
      push_warning (js "Popup initiation failed for " ++ quoted title ++ js ".") ;;
      ret (js "N/A")
  | Some dialog_link =>
      emit (Click dialog_link) ;;
      modify (fun st =>
        with_cited_by_download (citation_dialog_effect row (cited_by_download st)) st) ;;
      emit (Delay base_load_buffer_ms) ;;
      st <- get ;;
      match cited_by_download st with
      | None =>
          push_warning (js "Download link not found for " ++ quoted title ++ js ".") ;;
          ret (js "N/A")
      | Some link => ret link
      end
  end.

(** ** [collect_aspr_page_data] (lines 46-103) *)

(** The body of the [for] loop after the quota test (lines 78-101). *)
Definition collect_row (current_row : Row) : M unit :=
  title_element <- deref (title_link current_row) ;;
  let title := NormalizeEncoding (anchor_text title_element) in
  let authors :=
    NormalizeEncoding (join (js ", ") (map trim (author_links current_row))) in
  date_text <- deref (date_span current_row) ;;
  let published_online_date := trim date_text in
  number_text <- deref (citation_number current_row) ;;
  let cited_by_count := trim number_text in
  link_element <- deref (title_link current_row) ;;
  let article_link := anchor_href link_element in
  abstract <- RetrieveAbstract current_row title ;;
  all_citing_papers_link <- RetrieveCitingPapersLink current_row title ;;
  push_record
    [ (js "title", title)
    ; (js "authors", authors)
    ; (js "published_online_date", published_online_date)
    ; (js "cited_by_count", cited_by_count)
    ; (js "abstract", abstract)
    ; (js "article_link", article_link)
    ; (js "all_citing_papers_link", all_citing_papers_link) ].

(** The [for ... of] loop (lines 73-102): the quota is tested before each row. *)
Fixpoint collect_rows (collection_count : nat) (rows : list Row) : M unit :=
  match rows with
  | [] => ret tt
  | current_row :: rest =>
      st <- get ;;
      if collection_count <=? List.length (aspr_data st)
      then ret tt
      else collect_row current_row ;; collect_rows collection_count rest
  end.

Definition main_results_region_selector : JSString := js "#maincontent".

Definition report : M unit :=
  st <- get ;; ConsoleErrorsAndWarnings (errors st) (warnings st).

Definition collect_aspr_page_data (collection_count : nat) (document : Document) : M unit :=
  match document with
  | None =>
      push_error (js "Selector " ++ main_results_region_selector ++ js " NOT found.") ;;
      report
  | Some results_view =>
      modify (with_next_page_link (next_page_anchor results_view)) ;;
      match next_page_anchor results_view with
      | None =>
          push_warning (js "Next page link NOT found. Collection quantity may run short.") ;;
          report
      | Some _ =>
          match result_rows results_view with
          | [] => push_error (js "No search results found.") ;; report
          | all_results_rows => collect_rows collection_count all_results_rows
          end
      end
  end.

(** ** [collect_aspr_data] (lines 18-41) *)

(** How the [while] loop was left: its condition was false on entry of an
    iteration, or one of its two [break]s ran. *)
Inductive LoopExit := ConditionFalse | QuotaMet | NoNextLink.

(** One pass through the body of the [while] loop (lines 20-35): [inl] when
    the body falls through to the next test of the condition, [inr] on a
    [break]. *)
Definition loop_body (collection_count : nat) (document : Document) : M (unit + LoopExit) :=
  collect_aspr_page_data collection_count document ;;
  st <- get ;;
  if collection_count <=? List.length (aspr_data st)
  then ret (inr QuotaMet)
  else
    match next_page_link st with
    | None =>
        push_error (js "Next page link not found on page "
                    ++ Number_toString (page_count st) ++ js ".") ;;
        ret (inr NoNextLink)
    | Some link =>
        emit (Click link) ;;
        emit (Delay (2 * base_load_buffer_ms)) ;;
        modify (fun st => with_page_count (S (page_count st)) st) ;;
        ret (inl tt)
    end.

(** The [while] loop.  [world k] is the document at the loop's pass number
    [k], counted from 0; [page_count] is that number.  [None]: the loop is
    still running after [fuel] passes. *)
Fixpoint collect_loop (fuel : nat) (collection_count : nat) (world : nat -> Document)
    (st : State) : option (Outcome LoopExit) :=
  if List.length (aspr_data st) <? collection_count
  then
    match fuel with
    | O => None
    | S fuel' =>
        match loop_body collection_count (world (page_count st)) st with
        | Threw st' => Some (Threw st')
        | Returned (inr exit) st' => Some (Returned exit st')
        | Returned (inl _) st' => collect_loop fuel' collection_count world st'
        end
    end
  else Some (Returned ConditionFalse st).

(** What follows the loop (lines 38-40). *)
Definition finish : M unit :=
  st <- get ;;
  emit (ConsoleLogRecords (aspr_data st)) ;;
  DownlaodResultsAsCSV (aspr_data st) (js "apsr_results.csv") ;;
  ConsoleErrorsAndWarnings (errors st) (warnings st).

Definition collect_aspr_data (fuel : nat) (collection_count : nat)
    (world : nat -> Document) (st : State) : option (Outcome LoopExit) :=
  match collect_loop fuel collection_count world st with
  | None => None
  | Some (Threw st') => Some (Threw st')
  | Some (Returned exit st') => Some ((finish ;; ret exit) st')
  end.

(** ** [automate_aspr] (lines 5-250) *)

Definition automate_aspr (fuel : nat) (collection_count : nat)
    (world : nat -> Document) (overlay : option JSString) : option (Outcome LoopExit) :=
  match (emit ConsoleClear) (initial_state overlay) with
  | Returned _ st => collect_aspr_data fuel collection_count world st
  | Threw st => Some (Threw st)
  end.

End Platform.

(** ** Predicates used in the statements *)

Definition head_is (b : N) (s : JSString) : bool :=
  match s with
  | [] => false
  | h :: _ => (b =? h)%N
  end.

(** The shape of every rule of the table: U+221A and one more unit, replaced
    by one unit other than U+221A. *)
Definition repair_shape (rule : JSString * JSString) : bool :=
  match rule with
  | ([a; _], [c]) => (a =? 0x221a)%N && negb (c =? 0x221a)%N
  | _ => false
  end.

(** A two-unit rule whose replacement is neither [a] nor [b]. *)
Definition harmless_for (a b : N) (rule : JSString * JSString) : bool :=
  match rule with
  | ([_; _], [c]) => negb (c =? a)%N && negb (c =? b)%N
  | _ => false
  end.

(** Canonical composition restricted to text that is its own NFC form: text
    without combining marks, conjoining jamo or canonically decomposable
    characters.  The closed examples below use such text only. *)
Definition NFC_of_composed_text (s : JSString) : JSString := s.

(** The keys of the object literal of lines 93-101, in order. *)
Definition record_keys : list JSString :=
  [ js "title"; js "authors"; js "published_online_date"; js "cited_by_count"
  ; js "abstract"; js "article_link"; js "all_citing_papers_link" ].

(** The exported file as a sequence of lines: the keys of the first record
    joined by commas, then for each record its values, each between two
    double quotes and otherwise as it is, joined by commas. *)
Definition csv_lines (first : JSObject) (records : list JSObject) : list JSString :=
  join [44%N] (Object_keys first)
  :: map (fun record => join [44%N] (map (fun value => [34%N] ++ value ++ [34%N])
                                         (Object_values record)))
         records.

(** The three queries of lines 78-88 whose result is dereferenced all find
    their element. *)
Definition row_complete (row : Row) : bool :=
  match title_link row, date_span row, citation_number row with
  | Some _, Some _, Some _ => true
  | _, _, _ => false
  end.

(** The variables that only [collect_aspr_data] and the page-level part of
    [collect_aspr_page_data] write are the same in both states. *)
Definition same_control (st st' : State) : Prop :=
  next_page_link st' = next_page_link st
  /\ page_count st' = page_count st
  /\ errors st' = errors st.

Definition has_record_keys (record : JSObject) : Prop :=
  Object_keys record = record_keys.

(** What a state passed through some part of a run has gained: records with
    the seven keys appended, within the quota left. *)
Definition extends_within (cc : nat) (st st' : State) : Prop :=
  exists more,
    aspr_data st' = aspr_data st ++ more
    /\ Forall has_record_keys more
    /\ List.length more <= cc - List.length (aspr_data st).

(** The two conditions on which [collect_aspr_page_data] pushes an error
    (lines 50-54 and 66-70), with the message pushed. *)
Definition page_fatal (document : Document) : option JSString :=
  match document with
  | None => Some (js "Selector #maincontent NOT found.")
  | Some view =>
      match next_page_anchor view, result_rows view with
      | Some _, [] => Some (js "No search results found.")
      | _, _ => None
      end
  end.

(** A page on which a pass either ends the loop or appends a record: it has
    its container, and with a next-page link it has rows, all complete. *)
Definition productive (document : Document) : bool :=
  match document with
  | None => false
  | Some view =>
      match next_page_anchor view, result_rows view with
      | None, _ => true
      | Some _, [] => false
      | Some _, rows => forallb row_complete rows
      end
  end.

(** The actions of lines 38-40 on a state. *)
Definition closing_actions (st : State) : list Action :=
  [ConsoleLogRecords (aspr_data st)]
  ++ export_output (aspr_data st) (js "apsr_results.csv")
  ++ diagnostics_output (errors st) (warnings st).

(** The state a run has ended in, or [default] when it has not ended. *)
Definition final_state (run : option (Outcome LoopExit)) (default : State) : State :=
  match run with
  | Some out => outcome_state out
  | None => default
  end.

(** ** Scenarios *)

(** A complete row with both controls; its dialog puts a download link of
    its own into the document. *)
Definition sample_row (n : nat) : Row :=
  {| title_link :=
       Some {| anchor_text := js " Paper " ++ Number_toString n;
               anchor_href := js "https://example.org/article/" ++ Number_toString n |};
     author_links := [js "A. Author "; js "B. Writer"];
     date_span := Some (js " 01 January 2020 ");
     citation_number := Some (js "12");
     abstract_toggle := Some (2 * n);
     abstract_region := Some (js "An abstract.");
     citation_dialog_link := Some (2 * n + 1);
     citation_dialog_effect :=
       fun _ => Some (js "https://example.org/cited-by/" ++ Number_toString n) |}.

Definition page_of (link : option Element) (rows : list Row) : Document :=
  Some {| next_page_anchor := link; result_rows := rows |}.

(** The documents of the successive passes: those listed, then [later]. *)
Definition pages (listed : list Document) (later : Document) : nat -> Document :=
  fun k => nth k listed later.

(** Quota 3; one page of five rows with a next-page link. *)
Definition scenario_A : nat -> Document :=
  pages [page_of (Some 100) (map sample_row [1; 2; 3; 4; 5])] None.

(** Quota 10; one page of four rows and no next-page link. *)
Definition scenario_B : nat -> Document :=
  pages [page_of None (map sample_row [1; 2; 3; 4])] None.

(** Quota 10; two rows and a next-page link on the first page, no container
    on the second, one more row on the third, a page without next-page link
    after that. *)
Definition scenario_D : nat -> Document :=
  pages [ page_of (Some 100) (map sample_row [1; 2]); None
        ; page_of (Some 102) [sample_row 3] ]
        (page_of None []).

(** The state of [scenario_D] when the first pass has fallen through. *)
Definition scenario_D_after_first_page : State :=
  outcome_state
    (loop_body NFC_of_composed_text 10 (scenario_D 0) (initial_state None)).

(** Quota 2; one row and a next-page link on the first page, no container on
    any later page. *)
Definition scenario_lost_container : nat -> Document :=
  pages [page_of (Some 100) [sample_row 1]] None.

(** Quota 3; every page has one row and a next-page link. *)
Definition scenario_one_row_pages : nat -> Document :=
  fun k => page_of (Some (100 + k)) [sample_row k].

(** A complete row with neither the abstract toggle nor the dialog link. *)
Definition bare_row (n : nat) : Row :=
  {| title_link := title_link (sample_row n);
     author_links := [];
     date_span := date_span (sample_row n);
     citation_number := citation_number (sample_row n);
     abstract_toggle := None;
     abstract_region := None;
     citation_dialog_link := None;
     citation_dialog_effect := fun present => present |}.

(** Quota 3; one page of three such rows with a next-page link. *)
Definition scenario_bare_rows : nat -> Document :=
  pages [page_of (Some 100) (map bare_row [1; 2; 3])] None.

(** Quota 1; no container on the first page. *)
Definition scenario_no_container : nat -> Document := pages [] None.

(** ** Predicates on traces and records used for the whole run *)

(** The delay of a page change (line 33), twice the base delay. *)
Definition is_page_delay (a : Action) : bool :=
  match a with
  | Delay ms => ms =? 2 * base_load_buffer_ms
  | _ => false
  end.

Definition count_page_delays (done : list Action) : nat :=
  List.length (filter is_page_delay done).

(** The actions of the loop: diagnostics, clicks and delays. *)
Definition in_loop_action (a : Action) : bool :=
  match a with
  | ConsoleLog _ | Click _ | Delay _ => true
  | ConsoleClear | ConsoleLogRecords _ | ConsoleWarn _ | SaveFile _ _ => false
  end.

(** From [st] to [st'] the diagnostics and the trace have only grown, by
    actions of the loop, and the page count has grown by the number of page
    delays among them. *)
Definition run_progress (st st' : State) : Prop :=
  (exists more, errors st' = errors st ++ more)
  /\ (exists more, warnings st' = warnings st ++ more)
  /\ (exists more,
        actions st' = actions st ++ more
        /\ forallb in_loop_action more = true
        /\ page_count st' = page_count st + count_page_delays more).

(** A computation under which every state progresses in that sense. *)
Definition progresses {A} (m : M A) : Prop :=
  forall st, run_progress st (outcome_state (m st)).


(** One line of [ConsoleErrorsAndWarnings]: a tab, the label, the index and
    the message. *)
Definition diagnostic_line (label : JSString) (i : nat) (msg : JSString) : Action :=
  ConsoleLog ([9%N] ++ label ++ js " #" ++ Number_toString i ++ js ": " ++ msg).

(** The warnings a row adds: one for the abstract and one for the link to
    the citing papers, each when the control or what it reveals is missing. *)
Definition abstract_missing (row : Row) : bool :=
  match abstract_toggle row, abstract_region row with
  | Some _, Some _ => false
  | _, _ => true
  end.

Definition citing_link_missing (row : Row) (present : option JSString) : bool :=
  match citation_dialog_link row with
  | None => true
  | Some _ =>
      match citation_dialog_effect row present with
      | None => true
      | Some _ => false
      end
  end.


(** The error of line 28 for page [n]. *)
Definition next_link_error (n : nat) : JSString :=
  js "Next page link not found on page " ++ Number_toString n ++ js ".".

(** A row whose date is missing, between complete rows (quota 5). *)
Definition broken_row (n : nat) : Row :=
  {| title_link := title_link (sample_row n);
     author_links := author_links (sample_row n);
     date_span := None;
     citation_number := citation_number (sample_row n);
     abstract_toggle := abstract_toggle (sample_row n);
     abstract_region := abstract_region (sample_row n);
     citation_dialog_link := citation_dialog_link (sample_row n);
     citation_dialog_effect := citation_dialog_effect (sample_row n) |}.

Definition scenario_broken_row : nat -> Document :=
  pages [page_of (Some 100) [sample_row 1; broken_row 2; sample_row 3]] None.

(** ** Terms of the statements on replacements and on printed diagnostics *)

(** The text holds no U+221A. *)
Definition no_sqrt (s : JSString) : bool := negb (existsb (N.eqb 0x221a) s).

(** A rule of the table whose pattern is U+221A and a unit other than [b]. *)
Definition other_pattern (b : N) (rule : JSString * JSString) : bool :=
  match fst rule with
  | [a; b'] => (a =? 0x221a)%N && negb (b' =? b)%N
  | _ => false
  end.

(** The messages of a buffer as they are to be printed: in order, each
    after a tab, the label, " #", its index counted from 0, and ": ". *)
Definition numbered_from_zero (label : JSString) (msgs : list JSString) : list Action :=
  map (fun numbered =>
         ConsoleLog ([9%N] ++ label ++ js " #" ++ Number_toString (fst numbered)
                     ++ js ": " ++ snd numbered))
      (combine (seq 0 (List.length msgs)) msgs).

(** What is to be printed for one buffer: nothing when it is empty, else a
    line feed and the header, then the numbered messages. *)
Definition printed_block (header label : JSString) (msgs : list JSString) : list Action :=
  match msgs with
  | [] => []
  | _ :: _ => ConsoleLog ([10%N] ++ header) :: numbered_from_zero label msgs
  end.

(** The pages on which [collect_aspr_page_data] returns before the row loop
    (lines 50-54, 58-62 and 66-70). *)
Definition page_returns_early (document : Document) : bool :=
  match document with
  | None => true
  | Some view =>
      match next_page_anchor view, result_rows view with
      | Some _, _ :: _ => false
      | _, _ => true
      end
  end.

(** * Properties *)

(** ** Literal replacement *)

(** The scan is leftmost-first, without overlap and without a second look at
    what it has written; [trim] strips both ends only. *)
Example replace_all_leftmost :
  replace_all (js "aa") (js "b") (js "aaa") = js "ba"
  /\ replace_all (js "ab") (js "a") (js "abb") = js "ab"
  /\ replace_all (js "abc") (js "-") (js "xabcabcab") = js "x--ab".
Proof. repeat split; reflexivity. Qed.

Example trim_both_ends :
  trim ([0x20; 0x09; 0xa0]%N ++ js "a  b" ++ [0x0a; 0xfeff; 0x2003]%N) = js "a  b".
Proof. reflexivity. Qed.

Example Number_toString_decimal :
  Number_toString 0 = js "0" /\ Number_toString 12 = js "12".
Proof. split; reflexivity. Qed.

Lemma list_pair_ind (P : JSString -> Prop) :
  P [] ->
  (forall x, P [x]) ->
  (forall x y t, P (y :: t) -> P t -> P (x :: y :: t)) ->
  forall s, P s.
Proof.
  intros Hnil Hone Hstep s.
  assert (both : P s /\ forall x, P (x :: s)).
  { induction s as [|y t [IHt IHyt]].
    - split; [exact Hnil | exact Hone].
    - split; [apply IHyt | intro x; apply Hstep; [apply IHyt | exact IHt]]. }
  exact (proj1 both).
Qed.

Lemma starts_with_pair a b x l :
  starts_with [a; b] (x :: l) = ((a =? x)%N && head_is b l).
Proof.
  destruct l as [|y t]; simpl; [reflexivity | now rewrite andb_true_r].
Qed.

Lemma occurs_cons pat x l :
  occurs pat (x :: l) = starts_with pat (x :: l) || occurs pat l.
Proof. reflexivity. Qed.

Lemma occurs_tail pat x l : occurs pat (x :: l) = false -> occurs pat l = false.
Proof.
  rewrite occurs_cons. intro H. now apply orb_false_iff in H.
Qed.

Lemma replace_all_absent pat rep s :
  occurs pat s = false -> replace_all pat rep s = s.
Proof.
  unfold replace_all. induction s as [|c s IH]; intro H; [reflexivity|].
  rewrite occurs_cons in H. apply orb_false_iff in H as [Hhere Hlater].
  cbn [replace_scan]. rewrite Hhere. f_equal. now apply IH.
Qed.

Lemma occurs_without_first_unit a rest s :
  existsb (N.eqb a) s = false -> occurs (a :: rest) s = false.
Proof.
  induction s as [|x s IH]; intro H.
  - reflexivity.
  - cbn [existsb] in H. apply orb_false_iff in H as [Hx Hs].
    rewrite occurs_cons. cbn [starts_with]. rewrite Hx. cbn [andb orb].
    now apply IH.
Qed.

Lemma join_cons sep (p q : JSString) (rest : list JSString) :
  join sep (p :: q :: rest) = p ++ sep ++ join sep (q :: rest).
Proof. reflexivity. Qed.

Lemma replace_pair_single a b rep x : replace_all [a; b] rep [x] = [x].
Proof.
  unfold replace_all. cbn. now rewrite andb_false_r.
Qed.

Lemma replace_pair_cons2 a b rep x y t :
  replace_all [a; b] rep (x :: y :: t)
  = if ((a =? x) && (b =? y))%N
    then rep ++ replace_all [a; b] rep t
    else x :: replace_all [a; b] rep (y :: t).
Proof.
  unfold replace_all. cbn [replace_scan List.length pred].
  rewrite starts_with_pair. cbn [head_is].
  destruct ((a =? x)%N && (b =? y)%N); reflexivity.
Qed.

(** The first unit of the output of a scan is the first unit of the input,
    unless a match starts there. *)
Lemma head_replace_pair a b c h y t :
  head_is h (replace_all [a; b] [c] (y :: t)) = true ->
  (h =? y)%N = true \/ ((a =? y)%N = true /\ (h =? c)%N = true).
Proof.
  destruct t as [|z t].
  - rewrite replace_pair_single. cbn. auto.
  - rewrite replace_pair_cons2.
    destruct ((a =? y)%N && (b =? z)%N) eqn:Hm; cbn; auto.
    apply andb_true_iff in Hm as [Hy _]. auto.
Qed.

(** A rule [a' b' -> c'] creates no occurrence of [a b]: the new unit is not
    [a], and it is not [b] or else no match is preceded by [a]. *)
Lemma pair_absent_preserved a b a' b' c' s :
  c' <> a ->
  (c' <> b \/ occurs [a; a'] s = false) ->
  occurs [a; b] s = false ->
  occurs [a; b] (replace_all [a'; b'] [c'] s) = false.
Proof.
  intros Hca. induction s as [| x | x y t IHyt IHt] using list_pair_ind;
    intros Hcb Hs.
  - reflexivity.
  - now rewrite replace_pair_single.
  - assert (Hcb' : c' <> b \/ occurs [a; a'] (y :: t) = false).
    { destruct Hcb as [H|H]; [now left | right; eapply occurs_tail; eassumption]. }
    assert (Hcb'' : c' <> b \/ occurs [a; a'] t = false).
    { destruct Hcb' as [H|H]; [now left | right; eapply occurs_tail; eassumption]. }
    pose proof (occurs_tail _ _ _ Hs) as Hyt.
    pose proof (occurs_tail _ _ _ Hyt) as Ht.
    rewrite replace_pair_cons2.
    destruct ((a' =? x)%N && (b' =? y)%N) eqn:Hm.
    + cbn [app]. rewrite occurs_cons, starts_with_pair.
      assert ((a =? c')%N = false) as -> by (apply N.eqb_neq; congruence).
      cbn [andb orb]. now apply IHt.
    + rewrite occurs_cons, starts_with_pair, (IHyt Hcb' Hyt), orb_false_r.
      destruct (a =? x)%N eqn:Hax; [|reflexivity]. cbn [andb].
      destruct (head_is b (replace_all [a'; b'] [c'] (y :: t))) eqn:Hh; [|reflexivity].
      exfalso. rewrite occurs_cons, starts_with_pair, Hax in Hs. cbn [andb orb head_is] in Hs.
      apply head_replace_pair in Hh as [Hby | [Hay Hbc]].
      * now rewrite Hby in Hs.
      * apply N.eqb_eq in Hbc.
        destruct Hcb as [Hne | Hocc]; [congruence|].
        rewrite occurs_cons, starts_with_pair, Hax in Hocc. cbn [andb orb head_is] in Hocc.
        now rewrite Hay in Hocc.
Qed.

(** After its own scan a pattern [a b] is gone, under the same conditions
    on the unit that replaces it. *)
Lemma pair_absent_after_own_rule a b c s :
  c <> a ->
  (c <> b \/ occurs [a; a] s = false) ->
  occurs [a; b] (replace_all [a; b] [c] s) = false.
Proof.
  intros Hca. induction s as [| x | x y t IHyt IHt] using list_pair_ind; intros Hcb.
  - reflexivity.
  - rewrite replace_pair_single. cbn. now rewrite andb_false_r.
  - assert (Hcb' : c <> b \/ occurs [a; a] (y :: t) = false).
    { destruct Hcb as [H|H]; [now left | right; eapply occurs_tail; eassumption]. }
    assert (Hcb'' : c <> b \/ occurs [a; a] t = false).
    { destruct Hcb' as [H|H]; [now left | right; eapply occurs_tail; eassumption]. }
    rewrite replace_pair_cons2.
    destruct ((a =? x)%N && (b =? y)%N) eqn:Hm.
    + cbn [app]. rewrite occurs_cons, starts_with_pair.
      assert ((a =? c)%N = false) as -> by (apply N.eqb_neq; congruence).
      cbn [andb orb]. now apply IHt.
    + rewrite occurs_cons, starts_with_pair, (IHyt Hcb'), orb_false_r.
      destruct (a =? x)%N eqn:Hax; [|reflexivity]. cbn [andb].
      destruct (head_is b (replace_all [a; b] [c] (y :: t))) eqn:Hh; [|reflexivity].
      exfalso. rewrite ?Hax in Hm. cbn [andb] in Hm.
      apply head_replace_pair in Hh as [Hby | [Hay Hbc]].
      * now rewrite Hby in Hm.
      * apply N.eqb_eq in Hbc.
        destruct Hcb as [Hne | Hocc]; [congruence|].
        rewrite occurs_cons, starts_with_pair, Hax in Hocc. cbn [andb orb head_is] in Hocc.
        now rewrite Hay in Hocc.
Qed.

Lemma apply_rules_app r1 r2 s :
  apply_rules (r1 ++ r2) s = apply_rules r2 (apply_rules r1 s).
Proof. unfold apply_rules. apply fold_left_app. Qed.

Lemma apply_rules_cons rule rules s :
  apply_rules (rule :: rules) s = apply_rules rules (replace_all (fst rule) (snd rule) s).
Proof. reflexivity. Qed.

(** ** The replacement chain of [NormalizeEncoding] *)

Lemma apply_rules_fixed rules s :
  (forall rule, In rule rules -> occurs (fst rule) s = false) ->
  apply_rules rules s = s.
Proof.
  induction rules as [|rule rules IH]; intro H; [reflexivity|].
  rewrite apply_rules_cons, replace_all_absent.
  - apply IH. intros r Hr. apply H. now right.
  - apply H. now left.
Qed.

Lemma absent_through_harmless a b rules :
  forallb (harmless_for a b) rules = true ->
  forall s, occurs [a; b] s = false -> occurs [a; b] (apply_rules rules s) = false.
Proof.
  induction rules as [|[pat rep] rules IH]; intros H s Hs; [exact Hs|].
  cbn [forallb] in H. apply andb_true_iff in H as [Hrule Hrules].
  rewrite apply_rules_cons. apply (IH Hrules). cbn [fst snd].
  destruct pat as [|a' [|b' [|? ?]]]; try discriminate Hrule.
  destruct rep as [|c' [|? ?]]; try discriminate Hrule.
  cbn [harmless_for] in Hrule. apply andb_true_iff in Hrule as [Hca Hcb].
  apply negb_true_iff, N.eqb_neq in Hca, Hcb.
  apply pair_absent_preserved; auto.
Qed.

Lemma repair_shape_inv rule :
  repair_shape rule = true ->
  exists b c, rule = ([0x221a; b], [c])%N /\ c <> 0x221a%N.
Proof.
  destruct rule as [pat rep].
  destruct pat as [|a [|b [|? ?]]]; try discriminate.
  destruct rep as [|c [|? ?]]; try discriminate.
  cbn [repair_shape]. intro H. apply andb_true_iff in H as [Ha Hc].
  apply N.eqb_eq in Ha. apply negb_true_iff, N.eqb_neq in Hc.
  exists b, c. now subst a.
Qed.

(** On text where U+221A never follows U+221A, rules of the table's shape
    create no occurrence of any pattern that starts with U+221A. *)
Lemma absent_through_repairs b rules :
  forallb repair_shape rules = true ->
  forall s,
    occurs [0x221a; 0x221a]%N s = false ->
    occurs [0x221a%N; b] s = false ->
    occurs [0x221a%N; b] (apply_rules rules s) = false.
Proof.
  induction rules as [|rule rules IH]; intros H s Hdouble Hs; [exact Hs|].
  cbn [forallb] in H. apply andb_true_iff in H as [Hrule Hrules].
  apply repair_shape_inv in Hrule as (b' & c' & -> & Hc).
  rewrite apply_rules_cons. cbn [fst snd].
  apply (IH Hrules); apply pair_absent_preserved; auto.
Qed.

Lemma table_patterns_absent rules :
  forallb repair_shape rules = true ->
  forall s,
    occurs [0x221a; 0x221a]%N s = false ->
    forall rule, In rule rules -> occurs (fst rule) (apply_rules rules s) = false.
Proof.
  induction rules as [|first rules IH]; intros H s Hdouble rule Hin; [destruct Hin|].
  cbn [forallb] in H. apply andb_true_iff in H as [Hfirst Hrules].
  apply repair_shape_inv in Hfirst as (b' & c' & -> & Hc).
  rewrite apply_rules_cons. cbn [fst snd].
  assert (Hdouble' : occurs [0x221a; 0x221a]%N
                       (replace_all [0x221a%N; b'] [c'] s) = false)
    by (apply pair_absent_preserved; auto).
  destruct Hin as [<- | Hin].
  - cbn [fst]. apply absent_through_repairs; auto.
    apply pair_absent_after_own_rule; auto.
  - now apply IH.
Qed.

Lemma third_rule_idle s :
  occurs [0x221a; 0xb6]%N (apply_rules (firstn 2 encoding_repairs) s) = false.
Proof.
  unfold encoding_repairs. cbn [firstn]. rewrite !apply_rules_cons. cbn [fst snd apply_rules fold_left].
  apply pair_absent_after_own_rule; [discriminate | left; discriminate].
Qed.

Lemma twentieth_rule_idle s :
  occurs [0x221a; 0xee]%N (apply_rules (firstn 19 encoding_repairs) s) = false.
Proof.
  change (firstn 19 encoding_repairs)
    with (firstn 8 encoding_repairs
          ++ ([0x221a; 0xee], [0xf6])%N :: firstn 10 (skipn 9 encoding_repairs)).
  rewrite apply_rules_app, apply_rules_cons. cbn [fst snd].
  apply absent_through_harmless; [reflexivity|].
  apply pair_absent_after_own_rule; [discriminate | left; discriminate].
Qed.

(** *** A pattern between texts without its first unit *)

Lemma replace_all_skip_unit pat rep x l :
  starts_with pat (x :: l) = false ->
  replace_all pat rep (x :: l) = x :: replace_all pat rep l.
Proof.
  intro H. unfold replace_all. cbn [replace_scan]. now rewrite H.
Qed.

Lemma replace_all_past_prefix a b rep p s :
  existsb (N.eqb a) p = false ->
  replace_all [a; b] rep (p ++ s) = p ++ replace_all [a; b] rep s.
Proof.
  induction p as [|x p IH]; intro H; [reflexivity|].
  cbn [existsb] in H. apply orb_false_iff in H as [Hx Hp].
  cbn [app]. rewrite replace_all_skip_unit.
  - f_equal. now apply IH.
  - now rewrite starts_with_pair, Hx.
Qed.

Lemma replace_pair_match a b rep t :
  replace_all [a; b] rep (a :: b :: t) = rep ++ replace_all [a; b] rep t.
Proof. now rewrite replace_pair_cons2, !N.eqb_refl. Qed.

Lemma forallb_free_cons a (p : JSString) (rest : list JSString) :
  forallb (fun part => negb (existsb (N.eqb a) part)) (p :: rest) = true ->
  existsb (N.eqb a) p = false
  /\ forallb (fun part => negb (existsb (N.eqb a) part)) rest = true.
Proof.
  intro H. cbn [forallb] in H. apply andb_true_iff in H as [Hp Hrest].
  now apply negb_true_iff in Hp.
Qed.

(** Every occurrence of [a b] that separates texts free of [a] is replaced. *)
Lemma replace_all_join a b c (parts : list JSString) :
  forallb (fun part => negb (existsb (N.eqb a) part)) parts = true ->
  replace_all [a; b] [c] (join [a; b] parts) = join [c] parts.
Proof.
  induction parts as [|p rest IH]; intro H; [reflexivity|].
  apply forallb_free_cons in H as [Hp Hrest].
  destruct rest as [|q rest].
  - cbn [join]. apply replace_all_absent. now apply occurs_without_first_unit.
  - rewrite !join_cons. rewrite replace_all_past_prefix by exact Hp.
    cbn [app]. rewrite replace_pair_match, (IH Hrest). reflexivity.
Qed.

Lemma occurs_past_prefix a b p s :
  existsb (N.eqb a) p = false -> occurs [a; b] (p ++ s) = occurs [a; b] s.
Proof.
  induction p as [|x p IH]; intro H; [reflexivity|].
  cbn [existsb] in H. apply orb_false_iff in H as [Hx Hp].
  cbn [app]. rewrite occurs_cons, starts_with_pair, Hx. cbn [andb orb].
  now apply IH.
Qed.

(** Between such texts no other pattern with the same first unit occurs. *)
Lemma occurs_join_other a b b' (parts : list JSString) :
  a <> b -> b' <> b ->
  forallb (fun part => negb (existsb (N.eqb a) part)) parts = true ->
  occurs [a; b'] (join [a; b] parts) = false.
Proof.
  intros Hab Hb. induction parts as [|p rest IH]; intro H; [reflexivity|].
  apply forallb_free_cons in H as [Hp Hrest].
  destruct rest as [|q rest].
  - cbn [join]. now apply occurs_without_first_unit.
  - rewrite join_cons, occurs_past_prefix by exact Hp.
    cbn [app]. rewrite occurs_cons, starts_with_pair, N.eqb_refl.
    cbn [head_is andb].
    assert ((b' =? b)%N = false) as -> by now apply N.eqb_neq.
    cbn [orb]. rewrite occurs_cons, starts_with_pair.
    assert ((a =? b)%N = false) as -> by now apply N.eqb_neq.
    cbn [andb orb]. now apply IH.
Qed.

Lemma join_without_unit a c (parts : list JSString) :
  c <> a ->
  forallb (fun part => negb (existsb (N.eqb a) part)) parts = true ->
  existsb (N.eqb a) (join [c] parts) = false.
Proof.
  intros Hc. induction parts as [|p rest IH]; intro H; [reflexivity|].
  apply forallb_free_cons in H as [Hp Hrest].
  destruct rest as [|q rest]; [exact Hp|].
  rewrite join_cons, !existsb_app, Hp, (IH Hrest). cbn [existsb].
  assert ((a =? c)%N = false) as -> by (apply N.eqb_neq; congruence).
  reflexivity.
Qed.

(** In a chain of rules of the table's shape, the first rule for the pattern
    U+221A [b] decides what its occurrences become: on a text made of parts
    without U+221A joined by that pattern, the earlier rules find nothing,
    this rule writes [c] for every occurrence, and the later rules find
    nothing either. *)
Lemma occurrences_rewritten b c pre post (parts : list JSString) :
  forallb (other_pattern b) pre = true ->
  forallb repair_shape post = true ->
  c <> 0x221a%N -> b <> 0x221a%N ->
  forallb no_sqrt parts = true ->
  apply_rules (pre ++ ([0x221a%N; b], [c]) :: post) (join [0x221a%N; b] parts)
  = join [c] parts.
Proof.
  intros Hpre Hpost Hc Hb Hparts.
  rewrite apply_rules_app, apply_rules_cons. cbn [fst snd].
  rewrite (apply_rules_fixed pre).
  - rewrite replace_all_join by exact Hparts.
    apply apply_rules_fixed. intros rule Hin.
    rewrite forallb_forall in Hpost.
    destruct (repair_shape_inv rule (Hpost rule Hin)) as (b' & c' & -> & _).
    cbn [fst]. apply occurs_without_first_unit.
    now apply join_without_unit.
  - intros rule Hin. rewrite forallb_forall in Hpre.
    specialize (Hpre rule Hin). unfold other_pattern in Hpre.
    destruct (fst rule) as [|a [|b' [|? ?]]]; try discriminate Hpre.
    apply andb_true_iff in Hpre as [Ha Hb'].
    apply N.eqb_eq in Ha. subst a. apply negb_true_iff, N.eqb_neq in Hb'.
    apply occurs_join_other; auto.
Qed.

(** C9.  The third rule (U+221A U+00B6 to U+00E5) and the twentieth (U+221A
    U+00EE to U+00EE) repeat the pattern of the second rule (to U+00E6) and
    of the ninth (to U+00F6).  On every input the text that reaches either
    of them holds no occurrence of its pattern, so it leaves that text
    unchanged, and the chain equals the chain without the two rules.  What
    the occurrences become is decided by the earlier rule, on every input:
    past the third rule the text is the text of the first rule with U+00E6
    written for the pattern, past the twentieth it is the text of the eighth
    with U+00F6 written for the pattern and the ten rules between applied.
    So a text of parts without U+221A joined by U+221A U+00B6 normalizes to
    the parts joined by U+00E6, and joined by U+221A U+00EE to the parts
    joined by U+00F6. *)
Theorem shadowed_rules_never_apply (nfc : JSString -> JSString) (text : JSString) :
  remove_shadowed [] encoding_repairs
    = firstn 2 encoding_repairs
      ++ firstn 16 (skipn 3 encoding_repairs) ++ skipn 20 encoding_repairs
  /\ nth 2 encoding_repairs ([], []) = ([0x221a; 0xb6], [0xe5])%N
  /\ nth 19 encoding_repairs ([], []) = ([0x221a; 0xee], [0xee])%N
  /\ replace_all [0x221a; 0xb6]%N [0xe5%N]
       (apply_rules (firstn 2 encoding_repairs) (nfc (trim text)))
     = apply_rules (firstn 2 encoding_repairs) (nfc (trim text))
  /\ replace_all [0x221a; 0xee]%N [0xee%N]
       (apply_rules (firstn 19 encoding_repairs) (nfc (trim text)))
     = apply_rules (firstn 19 encoding_repairs) (nfc (trim text))
  /\ NormalizeEncoding nfc text = NormalizeEncoding_without_shadowed nfc text
  /\ nth 1 encoding_repairs ([], []) = ([0x221a; 0xb6], [0xe6])%N
  /\ nth 8 encoding_repairs ([], []) = ([0x221a; 0xee], [0xf6])%N
  /\ (forall parts : list JSString,
        forallb no_sqrt parts = true ->
        nfc (trim text) = join [0x221a; 0xb6]%N parts ->
        NormalizeEncoding nfc text = join [0xe6%N] parts)
  /\ (forall parts : list JSString,
        forallb no_sqrt parts = true ->
        nfc (trim text) = join [0x221a; 0xee]%N parts ->
        NormalizeEncoding nfc text = join [0xf6%N] parts)
  /\ apply_rules (firstn 3 encoding_repairs) (nfc (trim text))
     = replace_all [0x221a; 0xb6]%N [0xe6%N]
         (apply_rules (firstn 1 encoding_repairs) (nfc (trim text)))
  /\ apply_rules (firstn 20 encoding_repairs) (nfc (trim text))
     = apply_rules (firstn 10 (skipn 9 encoding_repairs))
         (replace_all [0x221a; 0xee]%N [0xf6%N]
            (apply_rules (firstn 8 encoding_repairs) (nfc (trim text)))).
Proof.
  assert (Hshadow : remove_shadowed [] encoding_repairs
    = firstn 2 encoding_repairs
      ++ firstn 16 (skipn 3 encoding_repairs) ++ skipn 20 encoding_repairs)
    by (vm_compute; reflexivity).
  pose proof (replace_all_absent _ [0xe5%N] _ (third_rule_idle (nfc (trim text)))) as H3.
  pose proof (replace_all_absent _ [0xee%N] _ (twentieth_rule_idle (nfc (trim text)))) as H20.
  assert (Hchain : NormalizeEncoding nfc text
                   = NormalizeEncoding_without_shadowed nfc text).
  { unfold NormalizeEncoding, NormalizeEncoding_without_shadowed.
    rewrite Hshadow.
    change encoding_repairs
      with (firstn 19 encoding_repairs
            ++ ([0x221a; 0xee], [0xee])%N :: skipn 20 encoding_repairs) at 1.
    rewrite apply_rules_app, apply_rules_cons. cbn [fst snd]. rewrite H20.
    change (firstn 19 encoding_repairs)
      with (firstn 2 encoding_repairs
            ++ ([0x221a; 0xb6], [0xe5])%N :: firstn 16 (skipn 3 encoding_repairs)).
    rewrite !apply_rules_app, apply_rules_cons. cbn [fst snd]. now rewrite H3. }
  assert (Hae : forall parts : list JSString,
            forallb no_sqrt parts = true ->
            nfc (trim text) = join [0x221a; 0xb6]%N parts ->
            NormalizeEncoding nfc text = join [0xe6%N] parts).
  { intros parts Hparts Htext. unfold NormalizeEncoding. rewrite Htext.
    change encoding_repairs
      with (firstn 1 encoding_repairs
            ++ ([0x221a; 0xb6], [0xe6])%N :: skipn 2 encoding_repairs).
    apply occurrences_rewritten;
      [reflexivity | reflexivity | discriminate | discriminate | exact Hparts]. }
  assert (Hoe : forall parts : list JSString,
            forallb no_sqrt parts = true ->
            nfc (trim text) = join [0x221a; 0xee]%N parts ->
            NormalizeEncoding nfc text = join [0xf6%N] parts).
  { intros parts Hparts Htext. unfold NormalizeEncoding. rewrite Htext.
    change encoding_repairs
      with (firstn 8 encoding_repairs
            ++ ([0x221a; 0xee], [0xf6])%N :: skipn 9 encoding_repairs).
    apply occurrences_rewritten;
      [reflexivity | reflexivity | discriminate | discriminate | exact Hparts]. }
  assert (Hthree : apply_rules (firstn 3 encoding_repairs) (nfc (trim text))
                   = replace_all [0x221a; 0xb6]%N [0xe6%N]
                       (apply_rules (firstn 1 encoding_repairs) (nfc (trim text)))).
  { change (firstn 3 encoding_repairs)
      with (firstn 2 encoding_repairs ++ [([0x221a; 0xb6], [0xe5])%N]).
    rewrite apply_rules_app, apply_rules_cons. cbn [fst snd apply_rules fold_left].
    exact H3. }
  assert (Htwenty : apply_rules (firstn 20 encoding_repairs) (nfc (trim text))
                    = apply_rules (firstn 10 (skipn 9 encoding_repairs))
                        (replace_all [0x221a; 0xee]%N [0xf6%N]
                           (apply_rules (firstn 8 encoding_repairs)
                              (nfc (trim text))))).
  { change (firstn 20 encoding_repairs)
      with (firstn 19 encoding_repairs ++ [([0x221a; 0xee], [0xee])%N]).
    rewrite apply_rules_app, apply_rules_cons. cbn [fst snd apply_rules fold_left].
    rewrite H20.
    change (firstn 19 encoding_repairs)
      with (firstn 8 encoding_repairs
            ++ ([0x221a; 0xee], [0xf6])%N :: firstn 10 (skipn 9 encoding_repairs)).
    now rewrite apply_rules_app, apply_rules_cons. }
  repeat split; try assumption; reflexivity.
Qed.

(** "K" U+221A U+00B6 "rg" U+221A U+00B6 "rd" becomes "K" U+00E6 "rg"
    U+00E6 "rd"; "K" U+221A U+00EE "ln" becomes "K" U+00F6 "ln". *)
Lemma shadowed_rules_never_apply_witness :
  NormalizeEncoding NFC_of_composed_text
    (js "K" ++ [0x221a; 0xb6]%N ++ js "rg" ++ [0x221a; 0xb6]%N ++ js "rd")
  = js "K" ++ [0xe6%N] ++ js "rg" ++ [0xe6%N] ++ js "rd"
  /\ NormalizeEncoding NFC_of_composed_text (js "K" ++ [0x221a; 0xee]%N ++ js "ln")
     = js "K" ++ [0xf6%N] ++ js "ln".
Proof.
  split.
  - pose proof (shadowed_rules_never_apply NFC_of_composed_text
                  (js "K" ++ [0x221a; 0xb6]%N ++ js "rg" ++ [0x221a; 0xb6]%N ++ js "rd"))
      as (_ & _ & _ & _ & _ & _ & _ & _ & Hae & _).
    apply (Hae [js "K"; js "rg"; js "rd"]); reflexivity.
  - pose proof (shadowed_rules_never_apply NFC_of_composed_text
                  (js "K" ++ [0x221a; 0xee]%N ++ js "ln"))
      as (_ & _ & _ & _ & _ & _ & _ & _ & _ & Hoe & _).
    apply (Hoe [js "K"; js "ln"]); reflexivity.
Defined.

(** A text of three units on which a second normalization goes on, whatever
    the engine's tables: two facts about canonical composition suffice. *)
Lemma NormalizeEncoding_twice_differs (nfc : JSString -> JSString) :
  nfc [0x221a; 0x221a; 0xf6]%N = [0x221a; 0x221a; 0xf6]%N ->
  nfc [0x221a; 0xf6]%N = [0x221a; 0xf6]%N ->
  NormalizeEncoding nfc [0x221a; 0x221a; 0xf6]%N = [0x221a; 0xf6]%N
  /\ NormalizeEncoding nfc (NormalizeEncoding nfc [0x221a; 0x221a; 0xf6]%N) = [0xf6%N].
Proof.
  intros H3 H2.
  assert (E : NormalizeEncoding nfc [0x221a; 0x221a; 0xf6]%N = [0x221a; 0xf6]%N).
  { unfold NormalizeEncoding.
    replace (trim [0x221a; 0x221a; 0xf6]%N) with [0x221a; 0x221a; 0xf6]%N by reflexivity.
    rewrite H3. vm_compute. reflexivity. }
  split; [exact E|]. rewrite E. unfold NormalizeEncoding.
  replace (trim [0x221a; 0xf6]%N) with [0x221a; 0xf6]%N by reflexivity.
  rewrite H2. vm_compute. reflexivity.
Qed.

(** C5, counterexample.  U+221A U+221A U+00F6 normalizes to U+221A U+00F6:
    the last rule replaces the match at the second unit and the scan does
    not look at its own output.  Normalizing that result gives U+00F6. *)
Lemma NormalizeEncoding_not_idempotent :
  NormalizeEncoding NFC_of_composed_text [0x221a; 0x221a; 0xf6]%N = [0x221a; 0xf6]%N
  /\ NormalizeEncoding NFC_of_composed_text
       (NormalizeEncoding NFC_of_composed_text [0x221a; 0x221a; 0xf6]%N) = [0xf6%N]
  /\ NormalizeEncoding NFC_of_composed_text
       (NormalizeEncoding NFC_of_composed_text [0x221a; 0x221a; 0xf6]%N)
     <> NormalizeEncoding NFC_of_composed_text [0x221a; 0x221a; 0xf6]%N.
Proof.
  destruct (NormalizeEncoding_twice_differs NFC_of_composed_text eq_refl eq_refl)
    as [E1 E2].
  repeat split; try assumption. rewrite E2, E1. discriminate.
Qed.

(** C5, amended.  Normalizing twice equals normalizing once for every text
    whose trimmed and composed form never has U+221A directly followed by
    U+221A, when trimming and canonical composition leave the first result
    as it is: that result holds no pattern of the table. *)
Theorem NormalizeEncoding_idempotent_without_double_sqrt
    (nfc : JSString -> JSString) (s : JSString) :
  occurs [0x221a; 0x221a]%N (nfc (trim s)) = false ->
  trim (NormalizeEncoding nfc s) = NormalizeEncoding nfc s ->
  nfc (NormalizeEncoding nfc s) = NormalizeEncoding nfc s ->
  (forall rule, In rule encoding_repairs ->
     occurs (fst rule) (NormalizeEncoding nfc s) = false)
  /\ NormalizeEncoding nfc (NormalizeEncoding nfc s) = NormalizeEncoding nfc s.
Proof.
  intros Hdouble Htrim Hnfc.
  assert (Habsent : forall rule, In rule encoding_repairs ->
            occurs (fst rule) (NormalizeEncoding nfc s) = false).
  { intros rule Hin. unfold NormalizeEncoding.
    apply table_patterns_absent; [reflexivity | exact Hdouble | exact Hin]. }
  split; [exact Habsent|].
  unfold NormalizeEncoding at 1. rewrite Htrim, Hnfc.
  now apply apply_rules_fixed.
Qed.

(** " S" U+221A U+00BA "ren " normalizes to "S" U+00F8 "ren", and again to itself. *)
Lemma NormalizeEncoding_idempotent_witness :
  NormalizeEncoding NFC_of_composed_text
    (js " S" ++ [0x221a; 0xba]%N ++ js "ren ") = (js "S" ++ [0xf8%N] ++ js "ren")
  /\ NormalizeEncoding NFC_of_composed_text
       (NormalizeEncoding NFC_of_composed_text (js " S" ++ [0x221a; 0xba]%N ++ js "ren "))
     = NormalizeEncoding NFC_of_composed_text (js " S" ++ [0x221a; 0xba]%N ++ js "ren ").
Proof.
  split; [vm_compute; reflexivity|].
  apply (NormalizeEncoding_idempotent_without_double_sqrt NFC_of_composed_text
           (js " S" ++ [0x221a; 0xba]%N ++ js "ren "));
    vm_compute; reflexivity.
Defined.

(** ** The export *)

(** C10.  For a list of records that is not empty the export saves, under
    the given file name, U+FEFF followed by the lines of [csv_lines] joined
    by U+000A: the header from the keys of the first record, then one line
    per record in order, every value between double quotes with its own
    quotes, commas and line breaks left as they are. *)
Theorem csv_export_content (first : JSObject) (rest : list JSObject)
    (filename : JSString) (st : State) :
  DownlaodResultsAsCSV (first :: rest) filename st
  = Returned tt
      (with_actions
         (actions st
          ++ [SaveFile filename
                ([0xfeff%N] ++ join [10%N] (csv_lines first (first :: rest)))]) st)
  /\ List.length (csv_lines first (first :: rest)) = S (S (List.length rest))
  /\ nth 0 (csv_lines first (first :: rest)) [] = join (js ",") (Object_keys first)
  /\ (forall k record, nth_error (first :: rest) k = Some record ->
        nth_error (csv_lines first (first :: rest)) (S k)
        = Some (join (js ",") (map (fun value => [34%N] ++ value ++ [34%N])
                                   (Object_values record)))).
Proof.
  repeat split.
  - unfold DownlaodResultsAsCSV, modify, export_output, csv_content, csv_lines.
    do 4 f_equal. cbn [map]. rewrite join_cons, <- app_assoc. reflexivity.
  - unfold csv_lines. cbn [List.length]. now rewrite length_map.
  - intros k record Hk. unfold csv_lines. cbn [nth_error].
    rewrite nth_error_map, Hk. reflexivity.
Qed.

(** A value with a quote, a comma and a line break goes out unescaped. *)
Example csv_export_no_escaping :
  export_output [[(js "k", js "a" ++ [34; 44; 10]%N ++ js "b")]] (js "f.csv")
  = [SaveFile (js "f.csv")
       ([0xfeff%N] ++ js "k" ++ [10%N]
        ++ [34%N] ++ js "a" ++ [34; 44; 10]%N ++ js "b" ++ [34%N])].
Proof. reflexivity. Qed.

(** ** The two fields read after a click and a delay *)

Section FieldRetrieval.

Variable nfc : JSString -> JSString.

(** C7.  Both retrievals return a value on every row and in every state;
    neither throws.  Without its control a retrieval records the warning
    that names the title and returns "N/A", with no click and no delay.
    With the control it clicks, waits [base_load_buffer_ms], and then reads:
    the abstract from the row (absent: warning and "N/A"; present: its
    normalized text), the download link from the document as a whole, as
    the click left it (absent: warning and "N/A"; present: its URL). *)
Theorem ui_revealed_fields_protocol (row : Row) (title : JSString) (st : State) :
  RetrieveAbstract nfc row title st
  = match abstract_toggle row with
    | None =>
        Returned (js "N/A")
          (with_warnings
             (warnings st ++ [js "Abstract extraction failed for "
                              ++ ([34%N] ++ title ++ [34%N]) ++ js "."]) st)
    | Some button =>
        let waited :=
          with_actions (actions st ++ [Click button; Delay 2500]) st in
        match abstract_region row with
        | None =>
            Returned (js "N/A")
              (with_warnings
                 (warnings st ++ [js "Abstract not found for "
                                  ++ ([34%N] ++ title ++ [34%N]) ++ js "."]) waited)
        | Some text => Returned (NormalizeEncoding nfc text) waited
        end
    end
  /\
  RetrieveCitingPapersLink row title st
  = match citation_dialog_link row with
    | None =>
        Returned (js "N/A")
          (with_warnings
             (warnings st ++ [js "Popup initiation failed for "
                              ++ ([34%N] ++ title ++ [34%N]) ++ js "."]) st)
    | Some trigger =>
        let waited :=
          with_actions (actions st ++ [Click trigger; Delay 2500])
            (with_cited_by_download
               (citation_dialog_effect row (cited_by_download st)) st) in
        match citation_dialog_effect row (cited_by_download st) with
        | None =>
            Returned (js "N/A")
              (with_warnings
                 (warnings st ++ [js "Download link not found for "
                                  ++ ([34%N] ++ title ++ [34%N]) ++ js "."]) waited)
        | Some link => Returned link waited
        end
    end
  /\ (exists value st', RetrieveAbstract nfc row title st = Returned value st')
  /\ (exists value st', RetrieveCitingPapersLink row title st = Returned value st').
Proof.
  assert (Habstract : exists value st',
            RetrieveAbstract nfc row title st = Returned value st').
  { unfold RetrieveAbstract, bind, emit, modify, push_warning, ret.
    destruct (abstract_toggle row); [destruct (abstract_region row)|];
      do 2 eexists; reflexivity. }
  assert (Hlink : exists value st',
            RetrieveCitingPapersLink row title st = Returned value st').
  { unfold RetrieveCitingPapersLink, bind, emit, modify, get, push_warning, ret.
    destruct (citation_dialog_link row); [|do 2 eexists; reflexivity].
    cbn [cited_by_download with_actions with_cited_by_download].
    destruct (citation_dialog_effect row (cited_by_download st));
      do 2 eexists; reflexivity. }
  split; [|split; [|split; assumption]].
  - unfold RetrieveAbstract.
    destruct (abstract_toggle row) as [button|]; [|reflexivity].
    destruct (abstract_region row) as [text|];
      unfold bind, emit, modify, push_warning, ret, with_actions, with_warnings;
      cbn [actions warnings aspr_data next_page_link page_count errors cited_by_download];
      rewrite <- app_assoc; reflexivity.
  - unfold RetrieveCitingPapersLink.
    destruct (citation_dialog_link row) as [trigger|]; [|reflexivity].
    unfold bind, emit, modify, get, push_warning, ret,
      with_actions, with_warnings, with_cited_by_download;
      cbn [actions warnings aspr_data next_page_link page_count errors cited_by_download].
    destruct (citation_dialog_effect row (cited_by_download st)) as [link|];
      rewrite <- app_assoc; reflexivity.
Qed.

(** The download link is read from the document, not from the row: a row
    whose dialog adds nothing to the document in time gets the link an
    earlier dialog left there. *)
Example citing_link_is_document_global (row : Row) (title stale : JSString) (st : State) :
  citation_dialog_link row = Some 7 ->
  citation_dialog_effect row = (fun present => present) ->
  cited_by_download st = Some stale ->
  exists st', RetrieveCitingPapersLink row title st = Returned stale st'.
Proof.
  intros Hlink Heffect Hstale.
  unfold RetrieveCitingPapersLink, bind, emit, modify, get, ret.
  rewrite Hlink, Heffect. cbn. rewrite Hstale. eexists. reflexivity.
Qed.

End FieldRetrieval.

(** ** Rows, pages and the loop: what a pass adds to [aspr_data] *)

Section Run.

Variable nfc : JSString -> JSString.

Lemma same_control_refl st : same_control st st.
Proof. now repeat split. Qed.

Lemma same_control_trans st1 st2 st3 :
  same_control st1 st2 -> same_control st2 st3 -> same_control st1 st3.
Proof.
  intros (A1 & A2 & A3) (B1 & B2 & B3). repeat split; congruence.
Qed.

(** A row either throws before anything is written, on the first query that
    finds nothing, or appends one record with the seven keys. *)
Lemma collect_row_spec row st :
  match collect_row nfc row st with
  | Returned _ st' =>
      row_complete row = true
      /\ same_control st st'
      /\ exists record,
           aspr_data st' = aspr_data st ++ [record] /\ has_record_keys record
  | Threw st' => row_complete row = false /\ st' = st
  end.
Proof.
  unfold collect_row, row_complete, deref, bind, ret.
  destruct (title_link row) as [anchor|]; [|now split].
  destruct (date_span row) as [date|]; [|now split].
  destruct (citation_number row) as [number|]; [|now split].
  unfold RetrieveAbstract, RetrieveCitingPapersLink, bind, ret, get,
    emit, push_warning, push_record, modify.
  destruct (abstract_toggle row) as [button|];
    [destruct (abstract_region row) as [text|]|];
    (destruct (citation_dialog_link row) as [trigger|];
     [cbn [cited_by_download with_actions with_warnings with_cited_by_download];
      destruct (citation_dialog_effect row (cited_by_download st)) as [link|]|]);
    (split; [reflexivity|]); (split; [now repeat split|]);
    eexists; (split; [reflexivity|reflexivity]).
Qed.

Lemma collect_rows_cons cc row rows st :
  collect_rows nfc cc (row :: rows) st
  = if cc <=? List.length (aspr_data st)
    then Returned tt st
    else match collect_row nfc row st with
         | Returned _ st1 => collect_rows nfc cc rows st1
         | Threw st1 => Threw st1
         end.
Proof.
  cbn [collect_rows]. unfold bind, get, ret.
  destruct (cc <=? List.length (aspr_data st)); reflexivity.
Qed.

(** The [for] loop appends records with the seven keys, never more than the
    quota still allows; on complete rows it returns, having taken as many
    rows as the quota allows. *)
Lemma collect_rows_spec cc rows : forall st,
  exists more,
    aspr_data (outcome_state (collect_rows nfc cc rows st)) = aspr_data st ++ more
    /\ Forall has_record_keys more
    /\ List.length more <= cc - List.length (aspr_data st)
    /\ same_control st (outcome_state (collect_rows nfc cc rows st))
    /\ (forallb row_complete rows = true ->
        List.length more = Nat.min (List.length rows) (cc - List.length (aspr_data st))
        /\ collect_rows nfc cc rows st
           = Returned tt (outcome_state (collect_rows nfc cc rows st))).
Proof.
  induction rows as [|row rows IH]; intro st.
  - exists []. cbn. rewrite app_nil_r.
    repeat split; auto using same_control_refl. lia.
  - rewrite collect_rows_cons.
    destruct (cc <=? List.length (aspr_data st)) eqn:Hquota.
    + apply Nat.leb_le in Hquota. exists []. cbn [outcome_state List.length].
      rewrite app_nil_r.
      split; [reflexivity|]. split; [constructor|]. split; [lia|].
      split; [apply same_control_refl|]. intros _. split; [lia|reflexivity].
    + apply Nat.leb_gt in Hquota.
      pose proof (collect_row_spec row st) as Hrow.
      destruct (collect_row nfc row st) as [[] st1|st1].
      * destruct Hrow as (Hcomplete & Hctl & record & Hdata & Hkeys).
        destruct (IH st1) as (more & Hmore & Hall & Hlen & Hctl' & Hreturns).
        exists (record :: more). rewrite Hmore, Hdata, <- app_assoc.
        rewrite Hdata, length_app in Hlen. cbn [List.length] in Hlen.
        split; [reflexivity|]. split; [now constructor|].
        split; [cbn [List.length]; lia|].
        split; [eapply same_control_trans; eassumption|].
        intro H. cbn [forallb] in H. apply andb_true_iff in H as [_ H].
        destruct (Hreturns H) as [Hcount Hret]. split; [|exact Hret].
        cbn [List.length]. rewrite Hcount, Hdata, length_app.
        cbn [List.length]. lia.
      * destruct Hrow as [Hincomplete ->]. exists []. cbn [outcome_state].
        rewrite app_nil_r.
        split; [reflexivity|]. split; [constructor|].
        split; [cbn [List.length]; lia|].
        split; [apply same_control_refl|].
        intro H. cbn [forallb] in H. now rewrite Hincomplete in H.
Qed.

(** The four ways through [collect_aspr_page_data]. *)

Lemma page_container_absent cc st :
  collect_aspr_page_data nfc cc None st
  = Returned tt
      (with_actions
         (actions st
          ++ diagnostics_output (errors st ++ [js "Selector #maincontent NOT found."])
               (warnings st))
         (with_errors (errors st ++ [js "Selector #maincontent NOT found."]) st)).
Proof. reflexivity. Qed.

Lemma page_next_link_absent cc rows st :
  collect_aspr_page_data nfc cc
    (Some {| next_page_anchor := None; result_rows := rows |}) st
  = Returned tt
      (with_actions
         (actions st
          ++ diagnostics_output (errors st)
               (warnings st
                ++ [js "Next page link NOT found. Collection quantity may run short."]))
         (with_warnings
            (warnings st
             ++ [js "Next page link NOT found. Collection quantity may run short."])
            (with_next_page_link None st))).
Proof. reflexivity. Qed.

Lemma page_rows_absent cc link st :
  collect_aspr_page_data nfc cc
    (Some {| next_page_anchor := Some link; result_rows := [] |}) st
  = Returned tt
      (with_actions
         (actions st
          ++ diagnostics_output (errors st ++ [js "No search results found."])
               (warnings st))
         (with_errors (errors st ++ [js "No search results found."])
            (with_next_page_link (Some link) st))).
Proof. reflexivity. Qed.

Lemma page_rows_present cc link row rows st :
  collect_aspr_page_data nfc cc
    (Some {| next_page_anchor := Some link; result_rows := row :: rows |}) st
  = collect_rows nfc cc (row :: rows) (with_next_page_link (Some link) st).
Proof. reflexivity. Qed.

Lemma extends_within_refl cc st : extends_within cc st st.
Proof.
  exists []. rewrite app_nil_r. repeat split; [constructor | cbn; lia].
Qed.

Lemma extends_within_same_data cc st st' :
  aspr_data st' = aspr_data st -> extends_within cc st st'.
Proof.
  intro H. exists []. rewrite app_nil_r. repeat split; [exact H | constructor | cbn; lia].
Qed.

Lemma extends_within_trans cc st1 st2 st3 :
  extends_within cc st1 st2 -> extends_within cc st2 st3 -> extends_within cc st1 st3.
Proof.
  intros (m1 & E1 & F1 & L1) (m2 & E2 & F2 & L2).
  exists (m1 ++ m2). rewrite E2, E1, <- app_assoc. split; [reflexivity|].
  split; [apply Forall_app; now split|].
  rewrite E1, length_app in L2. rewrite length_app. lia.
Qed.

Lemma page_extends cc document st :
  extends_within cc st (outcome_state (collect_aspr_page_data nfc cc document st))
  /\ page_count (outcome_state (collect_aspr_page_data nfc cc document st))
     = page_count st.
Proof.
  destruct document as [[[link|] [|row rows]]|];
    try (split; [now apply extends_within_same_data | reflexivity]).
  rewrite page_rows_present.
  destruct (collect_rows_spec cc (row :: rows) (with_next_page_link (Some link) st))
    as (more & Hdata & Hkeys & Hlen & (_ & Hpage & _) & _).
  split; [exists more; auto | exact Hpage].
Qed.

Lemma loop_body_extends cc document st :
  extends_within cc st (outcome_state (loop_body nfc cc document st)).
Proof.
  unfold loop_body, bind.
  destruct (page_extends cc document st) as [Hext _].
  destruct (collect_aspr_page_data nfc cc document st) as [[] st1|st1];
    [|exact Hext].
  cbn [outcome_state] in Hext. unfold get.
  destruct (cc <=? List.length (aspr_data st1)); [exact Hext|].
  destruct (next_page_link st1); exact Hext.
Qed.

Lemma collect_loop_extends cc world fuel : forall st out,
  collect_loop nfc fuel cc world st = Some out ->
  extends_within cc st (outcome_state out).
Proof.
  induction fuel as [|fuel IH]; intros st out; cbn [collect_loop];
    destruct (List.length (aspr_data st) <? cc);
    try discriminate;
    try (intro H; injection H as <-; apply extends_within_refl).
  pose proof (loop_body_extends cc (world (page_count st)) st) as Hbody.
  destruct (loop_body nfc cc (world (page_count st)) st) as [[[]|exit] st1|st1];
    cbn [outcome_state] in Hbody.
  - intro H. eapply extends_within_trans; [exact Hbody | now apply IH].
  - intro H. now injection H as <-.
  - intro H. now injection H as <-.
Qed.

(** What follows the loop, in one step. *)
Lemma finish_spec st :
  finish st
  = Returned tt
      (with_actions
         (actions st
          ++ [ConsoleLogRecords (aspr_data st)]
          ++ export_output (aspr_data st) (js "apsr_results.csv")
          ++ diagnostics_output (errors st) (warnings st)) st).
Proof.
  unfold finish, bind, get, emit, DownlaodResultsAsCSV, ConsoleErrorsAndWarnings,
    modify, with_actions.
  cbn [actions aspr_data next_page_link page_count errors warnings cited_by_download].
  now rewrite <- !app_assoc.
Qed.

Lemma collect_aspr_data_extends cc world fuel st out :
  collect_aspr_data nfc fuel cc world st = Some out ->
  extends_within cc st (outcome_state out).
Proof.
  unfold collect_aspr_data.
  destruct (collect_loop nfc fuel cc world st) as [[exit st1|st1]|] eqn:Hloop;
    try discriminate; intro H; injection H as <-;
    apply collect_loop_extends in Hloop; cbn [outcome_state] in Hloop.
  - unfold bind. rewrite finish_spec. exact Hloop.
  - exact Hloop.
Qed.

Lemma automate_aspr_records cc world fuel overlay out :
  automate_aspr nfc fuel cc world overlay = Some out ->
  Forall has_record_keys (aspr_data (outcome_state out))
  /\ List.length (aspr_data (outcome_state out)) <= cc.
Proof.
  unfold automate_aspr. cbn [emit modify].
  intro H. apply collect_aspr_data_extends in H as (more & Hdata & Hkeys & Hlen).
  cbn in Hdata, Hlen. rewrite Hdata. split; [exact Hkeys | lia].
Qed.

(** Rows past the quota are not visited: the loop over all rows is the loop
    over as many first rows as the quota still allows. *)
Lemma collect_rows_firstn cc rows : forall st,
  collect_rows nfc cc rows st
  = collect_rows nfc cc (firstn (cc - List.length (aspr_data st)) rows) st.
Proof.
  induction rows as [|row rows IH]; intro st.
  - now rewrite firstn_nil.
  - rewrite collect_rows_cons.
    destruct (cc <=? List.length (aspr_data st)) eqn:Hquota.
    + apply Nat.leb_le in Hquota.
      replace (cc - List.length (aspr_data st)) with 0 by lia. reflexivity.
    + pose proof Hquota as Hlt. apply Nat.leb_gt in Hlt.
      destruct (cc - List.length (aspr_data st)) as [|k] eqn:Hleft; [lia|].
      cbn [firstn]. rewrite collect_rows_cons, Hquota.
      pose proof (collect_row_spec row st) as Hrow.
      destruct (collect_row nfc row st) as [[] st1|st1]; [|reflexivity].
      destruct Hrow as (_ & _ & record & Hdata & _).
      rewrite (IH st1), Hdata, length_app. cbn [List.length].
      now replace (cc - (List.length (aspr_data st) + 1)) with k by lia.
Qed.

Lemma loop_body_unfold cc document st :
  loop_body nfc cc document st
  = match collect_aspr_page_data nfc cc document st with
    | Threw st1 => Threw st1
    | Returned _ st1 =>
        if cc <=? List.length (aspr_data st1)
        then Returned (inr QuotaMet) st1
        else
          match next_page_link st1 with
          | None =>
              Returned (inr NoNextLink)
                (with_errors
                   (errors st1
                    ++ [js "Next page link not found on page "
                        ++ Number_toString (page_count st1) ++ js "."]) st1)
          | Some link =>
              Returned (inl tt)
                (with_page_count (S (page_count st1))
                   (with_actions (actions st1 ++ [Click link; Delay 5000]) st1))
          end
    end.
Proof.
  unfold loop_body, bind, get.
  destruct (collect_aspr_page_data nfc cc document st) as [[] st1|st1]; [|reflexivity].
  destruct (cc <=? List.length (aspr_data st1)); [reflexivity|].
  destruct (next_page_link st1) as [link|]; [|reflexivity].
  unfold emit, modify, ret, with_actions, with_page_count.
  cbn [actions aspr_data next_page_link page_count errors warnings cited_by_download].
  now rewrite <- app_assoc.
Qed.

Lemma collect_loop_S fuel cc world st :
  collect_loop nfc (S fuel) cc world st
  = if List.length (aspr_data st) <? cc
    then match loop_body nfc cc (world (page_count st)) st with
         | Threw st' => Some (Threw st')
         | Returned (inr exit) st' => Some (Returned exit st')
         | Returned (inl _) st' => collect_loop nfc fuel cc world st'
         end
    else Some (Returned ConditionFalse st).
Proof. reflexivity. Qed.

(** A loop that has ended within some number of passes gives the same
    result with any larger allowance. *)
Lemma collect_loop_more_fuel cc world fuel : forall st out extra,
  collect_loop nfc fuel cc world st = Some out ->
  collect_loop nfc (fuel + extra) cc world st = Some out.
Proof.
  induction fuel as [|fuel IH]; intros st out extra.
  - cbn [collect_loop]. destruct extra as [|extra]; [trivial|].
    cbn [Nat.add]. rewrite collect_loop_S.
    destruct (List.length (aspr_data st) <? cc); [discriminate | trivial].
  - cbn [Nat.add]. rewrite !collect_loop_S.
    destruct (List.length (aspr_data st) <? cc); [|trivial].
    destruct (loop_body nfc cc (world (page_count st)) st) as [[[]|exit] st1|st1];
      auto.
Qed.

(** On productive pages every pass that does not end the loop appends a
    record, so the loop ends within as many passes as records are missing. *)
Lemma collect_loop_productive cc world :
  (forall k, k < cc -> productive (world k) = true) ->
  forall fuel st,
    cc - List.length (aspr_data st) <= fuel ->
    page_count st <= List.length (aspr_data st) ->
    exists exit st', collect_loop nfc fuel cc world st = Some (Returned exit st').
Proof.
  intros Hworld. induction fuel as [|fuel IH]; intros st Hfuel Hpage.
  - cbn [collect_loop].
    destruct (List.length (aspr_data st) <? cc) eqn:Hc; [|eauto].
    apply Nat.ltb_lt in Hc. lia.
  - rewrite collect_loop_S.
    destruct (List.length (aspr_data st) <? cc) eqn:Hc; [|eauto].
    apply Nat.ltb_lt in Hc.
    assert (Hprod : productive (world (page_count st)) = true)
      by (apply Hworld; lia).
    rewrite loop_body_unfold.
    destruct (world (page_count st)) as [[[link|] [|row rows]]|];
      try discriminate Hprod.
    + rewrite page_rows_present.
      destruct (collect_rows_spec cc (row :: rows) (with_next_page_link (Some link) st))
        as (more & Hdata & _ & Hlen & (Hlink & Hcount & _) & Hreturns).
      destruct (Hreturns Hprod) as [Hmore ->].
      set (st1 := outcome_state
                    (collect_rows nfc cc (row :: rows)
                       (with_next_page_link (Some link) st))) in *.
      cbn [aspr_data with_next_page_link next_page_link page_count] in *.
      cbn [List.length] in Hmore.
      destruct (cc <=? List.length (aspr_data st1)); [eauto|].
      rewrite Hlink. apply IH.
      * cbn [aspr_data with_page_count with_actions]. rewrite Hdata, length_app. lia.
      * cbn [aspr_data page_count with_page_count with_actions].
        rewrite Hdata, length_app, Hcount. lia.
    + rewrite page_next_link_absent.
      cbn [aspr_data next_page_link with_actions with_warnings with_next_page_link].
      apply Nat.leb_gt in Hc. rewrite Hc. eauto.
    + rewrite page_next_link_absent.
      cbn [aspr_data next_page_link with_actions with_warnings with_next_page_link].
      apply Nat.leb_gt in Hc. rewrite Hc. eauto.
Qed.

(** Without a container and with no link held, the first pass ends the loop. *)
Lemma collect_loop_container_absent cc world fuel st :
  world (page_count st) = None ->
  next_page_link st = None ->
  (List.length (aspr_data st) < cc -> 1 <= fuel) ->
  exists exit st', collect_loop nfc fuel cc world st = Some (Returned exit st').
Proof.
  intros Habsent Hlink Hfuel.
  destruct (List.length (aspr_data st) <? cc) eqn:Hc.
  - apply Nat.ltb_lt in Hc. destruct fuel as [|fuel]; [specialize (Hfuel Hc); lia|].
    rewrite collect_loop_S, loop_body_unfold, Habsent, page_container_absent.
    cbn [aspr_data next_page_link with_actions with_errors].
    pose proof Hc as Hlt. apply Nat.ltb_lt in Hlt. apply Nat.leb_gt in Hc.
    rewrite Hlt, Hc, Hlink. eauto.
  - destruct fuel; cbn [collect_loop]; rewrite Hc; eauto.
Qed.

Lemma collect_aspr_data_returned cc world fuel st exit st' :
  collect_aspr_data nfc fuel cc world st = Some (Returned exit st') ->
  exists left,
    collect_loop nfc fuel cc world st = Some (Returned exit left)
    /\ st' = with_actions (actions left ++ closing_actions left) left.
Proof.
  unfold collect_aspr_data.
  destruct (collect_loop nfc fuel cc world st) as [[exit1 left|left]|];
    try discriminate.
  unfold bind. rewrite finish_spec. unfold ret. intro H. injection H as <- <-.
  now exists left.
Qed.

End Run.

(** ** The quota and the shape of the records *)

(** C4.  The rows of a page past the remaining quota are not visited: running
    the row loop on all rows is running it on the first rows the quota still
    allows, so once the quota is met nothing more is clicked or appended.
    And a run that has ended, by a return or by a throw, holds at most
    [collection_count] records. *)
Theorem quota_never_exceeded (nfc : JSString -> JSString) (collection_count : nat) :
  (forall rows st,
     collect_rows nfc collection_count rows st
     = collect_rows nfc collection_count
         (firstn (collection_count - List.length (aspr_data st)) rows) st)
  /\ (forall fuel world overlay out,
        automate_aspr nfc fuel collection_count world overlay = Some out ->
        List.length (aspr_data (outcome_state out)) <= collection_count).
Proof.
  split.
  - intros rows st. apply collect_rows_firstn.
  - intros fuel world overlay out H.
    now apply automate_aspr_records in H.
Qed.

(** Quota 3 on a page of five rows: three records, and the clicks of the
    first three rows only. *)
Lemma quota_never_exceeded_witness :
  exists st,
    automate_aspr NFC_of_composed_text 5 3 scenario_A None = Some (Returned QuotaMet st)
    /\ List.length (aspr_data st) = 3
    /\ filter (fun a => match a with Click _ => true | _ => false end) (actions st)
       = [Click 2; Click 3; Click 4; Click 5; Click 6; Click 7]
    /\ List.length (aspr_data st) <= 3.
Proof.
  eexists. split; [vm_compute; reflexivity|].
  split; [reflexivity|]. split; [vm_compute; reflexivity|].
  refine (proj2 (quota_never_exceeded NFC_of_composed_text 3)
            5 scenario_A None (Returned QuotaMet _) _).
  vm_compute. reflexivity.
Defined.

(** C6.  Every record of a run that has ended, by a return or by a throw,
    has the seven keys of the object literal, in its order, each with a
    value; "N/A" is such a value. *)
Theorem records_have_seven_keys (nfc : JSString -> JSString) (fuel : nat)
    (collection_count : nat) (world : nat -> Document) (overlay : option JSString)
    (out : Outcome LoopExit) :
  automate_aspr nfc fuel collection_count world overlay = Some out ->
  Forall (fun record =>
            Object_keys record = record_keys
            /\ List.length (Object_values record) = 7)
         (aspr_data (outcome_state out)).
Proof.
  intro H. apply automate_aspr_records in H as [Hkeys _].
  eapply Forall_impl; [|exact Hkeys].
  intros record Hrecord. split; [exact Hrecord|].
  unfold has_record_keys, Object_keys in Hrecord. unfold Object_values.
  rewrite length_map, <- (length_map fst), Hrecord. reflexivity.
Qed.

(** Three rows with neither control: three records of seven keys, with
    "N/A" for the abstract and for the link to the citing papers. *)
Lemma records_have_seven_keys_witness :
  exists out,
    automate_aspr NFC_of_composed_text 5 3 scenario_bare_rows None = Some out
    /\ map (fun record => nth 4 (Object_values record) []) (aspr_data (outcome_state out))
       = [js "N/A"; js "N/A"; js "N/A"]
    /\ Forall (fun record =>
                 Object_keys record = record_keys
                 /\ List.length (Object_values record) = 7)
              (aspr_data (outcome_state out)).
Proof.
  eexists. split; [vm_compute; reflexivity|].
  split; [vm_compute; reflexivity|].
  apply (@records_have_seven_keys NFC_of_composed_text 5 3 scenario_bare_rows None).
  vm_compute. reflexivity.
Defined.

(** ** After the loop *)

Lemma numbered_lines_seq label msgs : forall i,
  numbered_lines label i msgs
  = map (fun numbered =>
           ConsoleLog ([9%N] ++ label ++ js " #" ++ Number_toString (fst numbered)
                       ++ js ": " ++ snd numbered))
        (combine (seq i (List.length msgs)) msgs).
Proof.
  induction msgs as [|m msgs IH]; intro i; [reflexivity|].
  cbn [numbered_lines List.length seq combine map fst snd]. now rewrite IH.
Qed.

Lemma diagnostics_output_printed errors warnings :
  diagnostics_output errors warnings
  = printed_block (js "Errors:") (js "Error") errors
    ++ printed_block (js "Warnings:") (js "Warning") warnings.
Proof.
  unfold diagnostics_output, printed_block, numbered_from_zero.
  rewrite !numbered_lines_seq. now destruct errors, warnings.
Qed.

(** C8, counterexample.  In Scenario D the error of the second page is on
    the console (actions 11 and 12) long before the record list is logged
    (action 25) and the file saved (action 26): the page collector prints
    the buffers at its early return. *)
Lemma diagnostics_precede_export_in_scenario_D :
  exists st content,
    automate_aspr NFC_of_composed_text 10 10 scenario_D None
    = Some (Returned NoNextLink st)
    /\ nth_error (actions st) 11 = Some (ConsoleLog ([10%N] ++ js "Errors:"))
    /\ nth_error (actions st) 12
       = Some (ConsoleLog ([9%N] ++ js "Error #0: Selector #maincontent NOT found."))
    /\ nth_error (actions st) 25 = Some (ConsoleLogRecords (aspr_data st))
    /\ nth_error (actions st) 26 = Some (SaveFile (js "apsr_results.csv") content).
Proof.
  do 2 eexists. split; [vm_compute; reflexivity|].
  repeat split; vm_compute; reflexivity.
Qed.

(** C8, amended.  When the loop has been left, the last actions of the run
    are, in this order: the log of the serialized list of all records; the
    export, a console warning alone when the list is empty and the file
    otherwise; and the printing of the buffers, for each one that is not
    empty a header and its messages in order, numbered from 0.  They change
    nothing else.  The buffers are printed earlier as well: a page on which
    the page collector returns before its row loop prints them at once,
    with at least one message, so such lines precede the export. *)
Theorem final_flush_follows_export (nfc : JSString -> JSString) (fuel : nat)
    (collection_count : nat) (world : nat -> Document) (st : State)
    (exit : LoopExit) (st' : State) :
  collect_aspr_data nfc fuel collection_count world st = Some (Returned exit st') ->
  (exists left,
     collect_loop nfc fuel collection_count world st = Some (Returned exit left)
     /\ aspr_data st' = aspr_data left
     /\ errors st' = errors left
     /\ warnings st' = warnings left
     /\ actions st'
        = actions left
          ++ [ConsoleLogRecords (aspr_data left)]
          ++ match aspr_data left with
             | [] => [ConsoleWarn (js "No data available to download.")]
             | first :: _ =>
                 [SaveFile (js "apsr_results.csv")
                    ([0xfeff%N] ++ csv_content first (aspr_data left))]
             end
          ++ printed_block (js "Errors:") (js "Error") (errors left)
          ++ printed_block (js "Warnings:") (js "Warning") (warnings left))
  /\ (forall document st0,
        page_returns_early document = true ->
        exists st1,
          collect_aspr_page_data nfc collection_count document st0 = Returned tt st1
          /\ aspr_data st1 = aspr_data st0
          /\ (errors st1 <> [] \/ warnings st1 <> [])
          /\ actions st1
             = actions st0
               ++ printed_block (js "Errors:") (js "Error") (errors st1)
               ++ printed_block (js "Warnings:") (js "Warning") (warnings st1)).
Proof.
  intro H. split.
  - apply collect_aspr_data_returned in H as (left & Hloop & ->).
    exists left. repeat split; try reflexivity; try exact Hloop.
    cbn [actions with_actions]. unfold closing_actions.
    rewrite diagnostics_output_printed. unfold export_output.
    now destruct (aspr_data left).
  - intros document st0 Hearly.
    destruct document as [[[link|] [|row rows]]|]; try discriminate Hearly.
    + rewrite page_rows_absent. eexists. split; [reflexivity|].
      cbn [aspr_data errors warnings actions with_actions with_errors
           with_next_page_link].
      rewrite diagnostics_output_printed.
      split; [reflexivity|]. split; [|reflexivity].
      left. now destruct (errors st0).
    + rewrite page_next_link_absent. eexists. split; [reflexivity|].
      cbn [aspr_data errors warnings actions with_actions with_warnings
           with_next_page_link].
      rewrite diagnostics_output_printed.
      split; [reflexivity|]. split; [|reflexivity].
      right. now destruct (warnings st0).
    + rewrite page_next_link_absent. eexists. split; [reflexivity|].
      cbn [aspr_data errors warnings actions with_actions with_warnings
           with_next_page_link].
      rewrite diagnostics_output_printed.
      split; [reflexivity|]. split; [|reflexivity].
      right. now destruct (warnings st0).
    + rewrite page_container_absent. eexists. split; [reflexivity|].
      cbn [aspr_data errors warnings actions with_actions with_errors].
      rewrite diagnostics_output_printed.
      split; [reflexivity|]. split; [|reflexivity].
      left. now destruct (errors st0).
Qed.

(** A run without a container on its first page: the error is printed by
    the page, then the empty list is logged, the notice given and both
    errors printed. *)
Lemma final_flush_follows_export_witness :
  exists st',
    collect_aspr_data NFC_of_composed_text 1 1 scenario_no_container (initial_state None)
    = Some (Returned NoNextLink st')
    /\ actions st'
       = [ ConsoleLog ([10%N] ++ js "Errors:")
         ; ConsoleLog ([9%N] ++ js "Error #0: Selector #maincontent NOT found.")
         ; ConsoleLogRecords []
         ; ConsoleWarn (js "No data available to download.")
         ; ConsoleLog ([10%N] ++ js "Errors:")
         ; ConsoleLog ([9%N] ++ js "Error #0: Selector #maincontent NOT found.")
         ; ConsoleLog ([9%N] ++ js "Error #1: Next page link not found on page 0.") ]
    /\ exists left,
         collect_loop NFC_of_composed_text 1 1 scenario_no_container (initial_state None)
         = Some (Returned NoNextLink left)
         /\ actions st'
            = actions left
              ++ [ConsoleLogRecords (aspr_data left)]
              ++ match aspr_data left with
                 | [] => [ConsoleWarn (js "No data available to download.")]
                 | first :: _ =>
                     [SaveFile (js "apsr_results.csv")
                        ([0xfeff%N] ++ csv_content first (aspr_data left))]
                 end
              ++ printed_block (js "Errors:") (js "Error") (errors left)
              ++ printed_block (js "Warnings:") (js "Warning") (warnings left).
Proof.
  eexists. split; [vm_compute; reflexivity|]. split; [vm_compute; reflexivity|].
  destruct (@final_flush_follows_export NFC_of_composed_text 1 1 scenario_no_container
              (initial_state None) NoNextLink _ eq_refl)
    as [(left & Hloop & _ & _ & _ & Hactions) _].
  exists left. split; [exact Hloop | exact Hactions].
Defined.

(** ** Pages that push an error *)

(** C1, the code at Scenario D.  Quota 10, two records from the first page,
    no container on the second.  The pass over the second page pushes its
    error and returns before line 57 sets [next_page_link]; the test of line
    27 then reads the link of the first page, so the pass falls through: it
    clicks that link, waits, and counts a page more; the loop goes on.  With one more row on
    the third page and no next-page link on the fourth, the run ends there
    with three records and two errors. *)
Lemma lost_container_does_not_end_the_loop :
  List.length (aspr_data scenario_D_after_first_page) = 2
  /\ scenario_D 1 = None
  /\ (exists st2,
        loop_body NFC_of_composed_text 10 (scenario_D 1) scenario_D_after_first_page
        = Returned (inl tt) st2
        /\ page_count st2 = 2
        /\ errors st2 = [js "Selector #maincontent NOT found."]
        /\ skipn (List.length (actions st2) - 2) (actions st2) = [Click 100; Delay 5000])
  /\ (exists st,
        automate_aspr NFC_of_composed_text 10 10 scenario_D None
        = Some (Returned NoNextLink st)
        /\ List.length (aspr_data st) = 3
        /\ errors st = [js "Selector #maincontent NOT found.";
                        js "Next page link not found on page 3."]).
Proof.
  split; [reflexivity|]. split; [reflexivity|]. split.
  - eexists. split; [vm_compute; reflexivity|].
    repeat split; vm_compute; reflexivity.
  - eexists. split; [vm_compute; reflexivity|].
    split; vm_compute; reflexivity.
Qed.

(** The pass over a page that pushes an error.  On a page without its
    container, or with a next-page link and no rows, a pass started below
    the quota pushes the error of the page and appends no record.  The
    loop ends in this pass when no next-page link is held, with the error
    "Next page link not found on page N." added, and otherwise clicks the
    link held, waits twice the base delay and goes on with the next page.
    The records of earlier pages stay in front of the list, and they are in
    what a run that returns logs and exports last. *)
Theorem fatal_page_keeps_records_without_ending_loop
    (nfc : JSString -> JSString) (collection_count : nat) (world : nat -> Document)
    (st : State) (msg : JSString) :
  List.length (aspr_data st) < collection_count ->
  page_fatal (world (page_count st)) = Some msg ->
  exists st1,
    collect_aspr_page_data nfc collection_count (world (page_count st)) st
    = Returned tt st1
    /\ aspr_data st1 = aspr_data st
    /\ errors st1 = errors st ++ [msg]
    /\ page_count st1 = page_count st
    /\ next_page_link st1
       = match world (page_count st) with
         | None => next_page_link st
         | Some view => next_page_anchor view
         end
    /\ (forall fuel,
          collect_loop nfc (S fuel) collection_count world st
          = match next_page_link st1 with
            | None =>
                Some (Returned NoNextLink
                        (with_errors
                           (errors st1
                            ++ [js "Next page link not found on page "
                                ++ Number_toString (page_count st) ++ js "."]) st1))
            | Some link =>
                collect_loop nfc fuel collection_count world
                  (with_page_count (S (page_count st))
                     (with_actions (actions st1 ++ [Click link; Delay 5000]) st1))
            end)
    /\ (forall fuel exit st',
          collect_aspr_data nfc fuel collection_count world st
          = Some (Returned exit st') ->
          exists more before,
            aspr_data st' = aspr_data st ++ more
            /\ actions st' = before ++ closing_actions st').
Proof.
  intros Hbelow Hfatal.
  assert (Hpage : exists st1,
            collect_aspr_page_data nfc collection_count (world (page_count st)) st
            = Returned tt st1
            /\ aspr_data st1 = aspr_data st
            /\ errors st1 = errors st ++ [msg]
            /\ page_count st1 = page_count st
            /\ next_page_link st1
               = match world (page_count st) with
                 | None => next_page_link st
                 | Some view => next_page_anchor view
                 end).
  { destruct (world (page_count st)) as [[[link|] [|row rows]]|];
      try discriminate Hfatal; injection Hfatal as <-.
    - rewrite page_rows_absent. eexists. repeat split.
    - rewrite page_container_absent. eexists. repeat split. }
  destruct Hpage as (st1 & Hpage & Hdata & Herrors & Hcount & Hlink).
  exists st1. repeat split; try assumption.
  - intro fuel. rewrite collect_loop_S.
    apply Nat.ltb_lt in Hbelow. rewrite Hbelow.
    rewrite loop_body_unfold, Hpage, Hdata.
    apply Nat.ltb_lt, Nat.leb_gt in Hbelow. rewrite Hbelow, Hcount.
    destruct (next_page_link st1); reflexivity.
  - intros fuel exit st' Hrun.
    apply collect_aspr_data_returned in Hrun as (left & Hloop & ->).
    apply collect_loop_extends in Hloop as (more & Hmore & _).
    exists more, (actions left). split; [exact Hmore | reflexivity].
Qed.

(** The second page of [scenario_D]: the two records stay, the one error is
    pushed, and the loop passes on to [collect_loop] with page count 2. *)
Lemma fatal_page_keeps_records_witness :
  List.length (aspr_data scenario_D_after_first_page) = 2
  /\ exists st1,
       collect_aspr_page_data NFC_of_composed_text 10
         (scenario_D (page_count scenario_D_after_first_page))
         scenario_D_after_first_page
       = Returned tt st1
       /\ aspr_data st1 = aspr_data scenario_D_after_first_page
       /\ errors st1 = [] ++ [js "Selector #maincontent NOT found."]
       /\ next_page_link st1 = Some 100.
Proof.
  split; [reflexivity|].
  destruct (@fatal_page_keeps_records_without_ending_loop NFC_of_composed_text 10
              scenario_D scenario_D_after_first_page
              (js "Selector #maincontent NOT found."))
    as (st1 & Hpage & Hdata & Herrors & _).
  - vm_compute. lia.
  - reflexivity.
  - exists st1. repeat split; try assumption.
    vm_compute in Hpage. injection Hpage as <-. reflexivity.
Defined.

(** C2, the code at Scenario B.  Quota 10, one page of four rows and no
    next-page link: the warning is recorded, the page returns before its
    rows are read, and the run ends with no record, one warning and the
    error of the loop. *)
Lemma absent_next_link_skips_rows :
  exists st,
    automate_aspr NFC_of_composed_text 1 10 scenario_B None
    = Some (Returned NoNextLink st)
    /\ aspr_data st = []
    /\ errors st = [js "Next page link not found on page 0."]
    /\ warnings st
       = [js "Next page link NOT found. Collection quantity may run short."]
    /\ filter (fun a => match a with Click _ => true | _ => false end) (actions st) = [].
Proof.
  eexists. split; [vm_compute; reflexivity|].
  repeat split; vm_compute; reflexivity.
Qed.

(** ** Whether the loop ends *)

(** Once a next-page link is held and the quota is not met, pages without
    container never end the loop: each pass clicks the link held. *)
Lemma collect_loop_stuck (nfc : JSString -> JSString) (cc : nat)
    (world : nat -> Document) (link : Element) :
  (forall k, 1 <= k -> world k = None) ->
  forall fuel st,
    List.length (aspr_data st) < cc ->
    next_page_link st = Some link ->
    1 <= page_count st ->
    collect_loop nfc fuel cc world st = None.
Proof.
  intros Hworld. induction fuel as [|fuel IH]; intros st Hbelow Hlink Hpage.
  - cbn [collect_loop]. apply Nat.ltb_lt in Hbelow. now rewrite Hbelow.
  - rewrite collect_loop_S. pose proof Hbelow as Hlt.
    apply Nat.ltb_lt in Hlt. rewrite Hlt.
    rewrite loop_body_unfold, (Hworld _ Hpage), page_container_absent.
    cbn [aspr_data next_page_link page_count with_actions with_errors].
    apply Nat.leb_gt in Hbelow. rewrite Hbelow, Hlink.
    apply IH; cbn [aspr_data next_page_link page_count with_actions with_page_count];
      [now apply Nat.leb_gt | exact Hlink | lia].
Qed.

(** C3, the code on a lost container.  Quota 2, one row and a next-page link
    on the first page, no container on any later page: every later pass
    returns before line 57 and leaves the link of the first page in
    [next_page_link], so the test of line 27 never ends the loop; no number
    of passes does, and lines 38-40 never run: nothing is exported. *)
Lemma lost_container_run_never_ends :
  ~ (exists fuel out,
       automate_aspr NFC_of_composed_text fuel 2 scenario_lost_container None
       = Some out).
Proof.
  intros (fuel & out & H).
  unfold automate_aspr, collect_aspr_data, emit, modify in H.
  destruct fuel as [|fuel]; [discriminate H|].
  rewrite collect_loop_S in H.
  change (List.length (aspr_data (with_actions
            (actions (initial_state None) ++ [ConsoleClear]) (initial_state None)))
          <? 2) with true in H.
  cbv iota in H.
  set (st0 := with_actions (actions (initial_state None) ++ [ConsoleClear])
                (initial_state None)) in H.
  assert (E : loop_body NFC_of_composed_text 2 (scenario_lost_container (page_count st0)) st0
              = Returned (inl tt)
                  (outcome_state
                     (loop_body NFC_of_composed_text 2
                        (scenario_lost_container (page_count st0)) st0)))
    by (vm_compute; reflexivity).
  rewrite E in H.
  rewrite (@collect_loop_stuck NFC_of_composed_text 2 scenario_lost_container 100) in H.
  - discriminate H.
  - intros [|[|k]] Hk; [lia | reflexivity | reflexivity].
  - vm_compute. lia.
  - vm_compute. reflexivity.
  - vm_compute. lia.
Qed.

(** A condition under which the loop ends.  When the first page has no
    container, or when each of the
    first [collection_count] pages has its container and, if it has a
    next-page link, rows that are all complete, the loop ends within
    [collection_count] passes, whatever larger allowance it is given.  The
    run then holds at most [collection_count] records and its last actions
    are the log of the records, the export (the notice alone when there is
    no record) and the diagnostics. *)
Theorem run_ends_on_productive_pages (nfc : JSString -> JSString)
    (collection_count : nat) (world : nat -> Document) (overlay : option JSString) :
  world 0 = None
  \/ (forall k, k < collection_count -> productive (world k) = true) ->
  exists exit st,
    (forall fuel, collection_count <= fuel ->
       automate_aspr nfc fuel collection_count world overlay = Some (Returned exit st))
    /\ List.length (aspr_data st) <= collection_count
    /\ (exists before, actions st = before ++ closing_actions st)
    /\ (aspr_data st = [] ->
        export_output (aspr_data st) (js "apsr_results.csv")
        = [ConsoleWarn (js "No data available to download.")]).
Proof.
  intro Hworld.
  set (st0 := with_actions (actions (initial_state overlay) ++ [ConsoleClear])
                (initial_state overlay)).
  assert (Hloop : exists exit left,
            collect_loop nfc collection_count collection_count world st0
            = Some (Returned exit left)).
  { destruct Hworld as [Habsent | Hproductive].
    - apply collect_loop_container_absent; [exact Habsent | reflexivity | cbn; lia].
    - apply collect_loop_productive; [exact Hproductive | cbn; lia | cbn; lia]. }
  destruct Hloop as (exit & left & Hloop).
  exists exit, (with_actions (actions left ++ closing_actions left) left).
  split; [|split; [|split]].
  - intros fuel Hfuel.
    replace fuel with (collection_count + (fuel - collection_count)) by lia.
    unfold automate_aspr, collect_aspr_data, emit, modify. fold st0.
    rewrite (@collect_loop_more_fuel nfc _ _ _ _ _ (fuel - collection_count) Hloop).
    unfold bind. now rewrite finish_spec.
  - apply collect_loop_extends in Hloop as (more & Hdata & _ & Hlen).
    cbn in Hdata, Hlen |- *. rewrite Hdata. lia.
  - now exists (actions left).
  - cbn [aspr_data with_actions]. now intros ->.
Qed.

(** Quota 3 on pages of one row each: three passes, three records. *)
Lemma run_ends_on_productive_pages_witness :
  (exists st,
     automate_aspr NFC_of_composed_text 3 3 scenario_one_row_pages None
     = Some (Returned QuotaMet st)
     /\ List.length (aspr_data st) = 3 /\ page_count st = 2)
  /\ exists exit st,
       (forall fuel, 3 <= fuel ->
          automate_aspr NFC_of_composed_text fuel 3 scenario_one_row_pages None
          = Some (Returned exit st))
       /\ List.length (aspr_data st) <= 3
       /\ (exists before, actions st = before ++ closing_actions st)
       /\ (aspr_data st = [] ->
           export_output (aspr_data st) (js "apsr_results.csv")
           = [ConsoleWarn (js "No data available to download.")]).
Proof.
  split.
  - eexists. split; [vm_compute; reflexivity|]. split; vm_compute; reflexivity.
  - apply (@run_ends_on_productive_pages NFC_of_composed_text 3
             scenario_one_row_pages None).
    right. intros k _. reflexivity.
Defined.

(** * Further properties of the run *)

(** ** Diagnostics and trace only grow *)

Lemma run_progress_refl st : run_progress st st.
Proof.
  repeat split; exists []; rewrite ?app_nil_r; auto.
Qed.

Lemma count_page_delays_app xs ys :
  count_page_delays (xs ++ ys) = count_page_delays xs + count_page_delays ys.
Proof.
  unfold count_page_delays. now rewrite filter_app, length_app.
Qed.

Lemma run_progress_trans st1 st2 st3 :
  run_progress st1 st2 -> run_progress st2 st3 -> run_progress st1 st3.
Proof.
  intros ((e1 & E1) & (w1 & W1) & (a1 & A1 & L1 & P1))
         ((e2 & E2) & (w2 & W2) & (a2 & A2 & L2 & P2)).
  split; [exists (e1 ++ e2); now rewrite E2, E1, app_assoc|].
  split; [exists (w1 ++ w2); now rewrite W2, W1, app_assoc|].
  exists (a1 ++ a2). rewrite A2, A1, app_assoc, forallb_app, L1, L2.
  rewrite count_page_delays_app. repeat split. lia.
Qed.

Lemma progresses_ret {A} (a : A) : progresses (ret a).
Proof. intro st. apply run_progress_refl. Qed.

Lemma progresses_bind {A B} (m : M A) (k : A -> M B) :
  progresses m -> (forall a, progresses (k a)) -> progresses (bind m k).
Proof.
  intros Hm Hk st. unfold bind. specialize (Hm st).
  destruct (m st) as [a st1|st1]; [|exact Hm].
  eapply run_progress_trans; [exact Hm | apply Hk].
Qed.

Lemma progresses_get : progresses get.
Proof. intro st. apply run_progress_refl. Qed.

Lemma progresses_deref {A} (queried : option A) : progresses (deref queried).
Proof. destruct queried; intro st; apply run_progress_refl. Qed.

Lemma progresses_push_error msg : progresses (push_error msg).
Proof.
  intro st. split; [now exists [msg]|].
  split; [exists []; cbn; now rewrite app_nil_r|].
  exists []. cbn. rewrite app_nil_r. repeat split. lia.
Qed.

Lemma progresses_push_warning msg : progresses (push_warning msg).
Proof.
  intro st. split; [exists []; cbn; now rewrite app_nil_r|].
  split; [now exists [msg]|].
  exists []. cbn. rewrite app_nil_r. repeat split. lia.
Qed.

Lemma run_progress_same st st' :
  errors st' = errors st -> warnings st' = warnings st ->
  actions st' = actions st -> page_count st' = page_count st ->
  run_progress st st'.
Proof.
  intros E W A P.
  split; [exists []; now rewrite app_nil_r|].
  split; [exists []; now rewrite app_nil_r|].
  exists []. rewrite app_nil_r. repeat split; auto. cbn. lia.
Qed.

Lemma progresses_push_record record : progresses (push_record record).
Proof. intro st. now apply run_progress_same. Qed.

Lemma progresses_modify_link link : progresses (modify (with_next_page_link link)).
Proof. intro st. now apply run_progress_same. Qed.

Lemma progresses_modify_overlay (f : State -> option JSString) :
  progresses (modify (fun st => with_cited_by_download (f st) st)).
Proof. intro st. now apply run_progress_same. Qed.

Lemma progresses_emit a :
  in_loop_action a = true -> is_page_delay a = false -> progresses (emit a).
Proof.
  intros Hloop Hdelay st.
  split; [exists []; cbn; now rewrite app_nil_r|].
  split; [exists []; cbn; now rewrite app_nil_r|].
  exists [a]. cbn. unfold count_page_delays. cbn. rewrite Hloop, Hdelay.
  repeat split. cbn. lia.
Qed.

Lemma numbered_lines_in_loop label msgs : forall i,
  forallb in_loop_action (numbered_lines label i msgs) = true
  /\ count_page_delays (numbered_lines label i msgs) = 0.
Proof.
  induction msgs as [|m msgs IH]; intro i; [now split|].
  destruct (IH (S i)) as [H1 H2]. cbn [numbered_lines forallb in_loop_action].
  split; [exact H1|]. exact H2.
Qed.

Lemma diagnostics_output_in_loop errors warnings :
  forallb in_loop_action (diagnostics_output errors warnings) = true
  /\ count_page_delays (diagnostics_output errors warnings) = 0.
Proof.
  unfold diagnostics_output. rewrite forallb_app, count_page_delays_app.
  destruct (numbered_lines_in_loop (js "Error") errors 0) as [E1 E2].
  destruct (numbered_lines_in_loop (js "Warning") warnings 0) as [W1 W2].
  destruct (0 <? List.length errors), (0 <? List.length warnings);
    cbn [forallb in_loop_action andb]; rewrite ?E1, ?W1; split; auto;
    unfold count_page_delays in *; cbn [filter is_page_delay List.length]; lia.
Qed.

Lemma progresses_report : progresses report.
Proof.
  intro st. unfold report, bind, get, ConsoleErrorsAndWarnings, modify.
  cbn [outcome_state].
  destruct (diagnostics_output_in_loop (errors st) (warnings st)) as [H1 H2].
  split; [exists []; cbn; now rewrite app_nil_r|].
  split; [exists []; cbn; now rewrite app_nil_r|].
  exists (diagnostics_output (errors st) (warnings st)).
  cbn [actions page_count with_actions]. rewrite H2.
  repeat split; [exact H1 | lia].
Qed.

Ltac progress_steps :=
  repeat first
    [ apply progresses_ret | apply progresses_get | apply progresses_deref
    | apply progresses_push_error | apply progresses_push_warning
    | apply progresses_push_record | apply progresses_modify_link
    | apply progresses_modify_overlay | apply progresses_report
    | apply progresses_emit; reflexivity
    | apply progresses_bind; [|intro] ].

Section RunTrace.

Variable nfc : JSString -> JSString.

Lemma progresses_RetrieveAbstract row title :
  progresses (RetrieveAbstract nfc row title).
Proof.
  unfold RetrieveAbstract.
  destruct (abstract_toggle row); [|progress_steps].
  destruct (abstract_region row); progress_steps.
Qed.

Lemma progresses_RetrieveCitingPapersLink row title :
  progresses (RetrieveCitingPapersLink row title).
Proof.
  unfold RetrieveCitingPapersLink.
  destruct (citation_dialog_link row); progress_steps.
  match goal with |- progresses (match ?x with _ => _ end) => destruct x end;
    progress_steps.
Qed.

Lemma progresses_collect_row row : progresses (collect_row nfc row).
Proof.
  unfold collect_row. cbv zeta. progress_steps.
  - apply progresses_RetrieveAbstract.
  - apply progresses_RetrieveCitingPapersLink.
Qed.

Lemma progresses_collect_rows cc rows : progresses (collect_rows nfc cc rows).
Proof.
  induction rows as [|row rows IH]; cbn [collect_rows]; [apply progresses_ret|].
  apply progresses_bind; [apply progresses_get | intro st0].
  destruct (cc <=? List.length (aspr_data st0)); [apply progresses_ret|].
  apply progresses_bind; [apply progresses_collect_row | intros _; exact IH].
Qed.

Lemma progresses_collect_aspr_page_data cc document :
  progresses (collect_aspr_page_data nfc cc document).
Proof.
  destruct document as [[[link|] [|row rows]]|].
  - unfold collect_aspr_page_data. cbn [next_page_anchor result_rows]. progress_steps.
  - intro st. rewrite page_rows_present.
    eapply run_progress_trans; [|apply progresses_collect_rows].
    now apply run_progress_same.
  - unfold collect_aspr_page_data. cbn [next_page_anchor result_rows]. progress_steps.
  - unfold collect_aspr_page_data. cbn [next_page_anchor result_rows]. progress_steps.
  - unfold collect_aspr_page_data. progress_steps.
Qed.

Lemma progresses_loop_body cc document : progresses (loop_body nfc cc document).
Proof.
  intro st. rewrite loop_body_unfold.
  pose proof (progresses_collect_aspr_page_data cc document st) as Hpage.
  destruct (collect_aspr_page_data nfc cc document st) as [[] st1|st1];
    cbn [outcome_state] in *; [|exact Hpage].
  destruct (cc <=? List.length (aspr_data st1)); [exact Hpage|].
  destruct (next_page_link st1) as [link|]; cbn [outcome_state].
  - eapply run_progress_trans; [exact Hpage|].
    split; [exists []; cbn; now rewrite app_nil_r|].
    split; [exists []; cbn; now rewrite app_nil_r|].
    exists [Click link; Delay 5000]. cbn [actions page_count with_actions with_page_count].
    repeat split. vm_compute count_page_delays. lia.
  - eapply run_progress_trans; [exact Hpage|].
    apply (progresses_push_error
             (js "Next page link not found on page "
              ++ Number_toString (page_count st1) ++ js ".") st1).
Qed.

Lemma collect_loop_progress cc world fuel : forall st out,
  collect_loop nfc fuel cc world st = Some out ->
  run_progress st (outcome_state out).
Proof.
  induction fuel as [|fuel IH]; intros st out; cbn [collect_loop];
    destruct (List.length (aspr_data st) <? cc);
    try discriminate;
    try (intro H; injection H as <-; apply run_progress_refl).
  pose proof (progresses_loop_body cc (world (page_count st)) st) as Hbody.
  destruct (loop_body nfc cc (world (page_count st)) st) as [[[]|exit] st1|st1];
    cbn [outcome_state] in Hbody; intro H.
  - eapply run_progress_trans; [exact Hbody | now apply IH].
  - now injection H as <-.
  - now injection H as <-.
Qed.

(** How an ended run relates to the state the loop was left in. *)
Lemma automate_aspr_ended cc world fuel overlay out :
  automate_aspr nfc fuel cc world overlay = Some out ->
  exists left,
    run_progress
      (with_actions (actions (initial_state overlay) ++ [ConsoleClear])
         (initial_state overlay)) left
    /\ extends_within cc (initial_state overlay) left
    /\ match out with
       | Threw st => st = left
       | Returned exit st =>
           collect_loop nfc fuel cc world
             (with_actions (actions (initial_state overlay) ++ [ConsoleClear])
                (initial_state overlay))
           = Some (Returned exit left)
           /\ st = with_actions (actions left ++ closing_actions left) left
       end.
Proof.
  unfold automate_aspr, collect_aspr_data, emit, modify.
  set (st0 := with_actions (actions (initial_state overlay) ++ [ConsoleClear])
                (initial_state overlay)).
  destruct (collect_loop nfc fuel cc world st0) as [[exit left|left]|] eqn:Hloop;
    try discriminate; intro H; injection H as <-; exists left;
    pose proof Hloop as Hprogress; apply collect_loop_progress in Hprogress;
    pose proof Hloop as Hextends; apply collect_loop_extends in Hextends;
    (split; [exact Hprogress|]); (split; [exact Hextends|]).
  - unfold bind. rewrite finish_spec. now split.
  - reflexivity.
Qed.

End RunTrace.

(** ** [ConsoleErrorsAndWarnings] *)

Lemma numbered_lines_nth label msgs : forall i k,
  nth_error (numbered_lines label i msgs) k
  = option_map (diagnostic_line label (i + k)) (nth_error msgs k).
Proof.
  induction msgs as [|m msgs IH]; intros i k.
  - now destruct k.
  - destruct k as [|k]; cbn [numbered_lines nth_error option_map].
    + now rewrite Nat.add_0_r.
    + rewrite IH. now replace (S i + k) with (i + S k) by lia.
Qed.

Lemma numbered_lines_length label msgs : forall i,
  List.length (numbered_lines label i msgs) = List.length msgs.
Proof.
  induction msgs as [|m msgs IH]; intro i; [reflexivity|].
  cbn [numbered_lines List.length]. now rewrite IH.
Qed.

Lemma diagnostics_output_lines errors warnings :
  List.length (diagnostics_output errors warnings)
  = match errors with [] => 0 | _ => S (List.length errors) end
    + match warnings with [] => 0 | _ => S (List.length warnings) end
  /\ (forall k msg, nth_error errors k = Some msg ->
        In (diagnostic_line (js "Error") k msg) (diagnostics_output errors warnings))
  /\ (forall k msg, nth_error warnings k = Some msg ->
        In (diagnostic_line (js "Warning") k msg) (diagnostics_output errors warnings)).
Proof.
  unfold diagnostics_output. split; [|split].
  - rewrite length_app.
    destruct errors, warnings; cbn [List.length Nat.ltb Nat.leb];
      rewrite ?numbered_lines_length; reflexivity.
  - intros k msg Hk. apply in_or_app. left.
    destruct errors as [|e errors]; [now destruct k|].
    cbn [List.length Nat.ltb Nat.leb]. right.
    apply (nth_error_In _ k). now rewrite numbered_lines_nth, Hk.
  - intros k msg Hk. apply in_or_app. right.
    destruct warnings as [|w warnings]; [now destruct k|].
    cbn [List.length Nat.ltb Nat.leb]. right.
    apply (nth_error_In _ k). now rewrite numbered_lines_nth, Hk.
Qed.

(** X1.  [ConsoleErrorsAndWarnings] prints and changes nothing else.  What
    it prints is, first for the errors and then for the warnings: nothing
    when the buffer is empty; otherwise a line feed and the header
    ("Errors:", "Warnings:"), followed by one line per message, in the
    order of the buffer, numbered from 0 ("<tab>Error #k: msg").  It does
    not clear the buffers, so a second call prints the same lines once
    more. *)
Theorem diagnostics_are_numbered_and_kept (recorded_errors recorded_warnings : list JSString)
    (st : State) :
  exists printed,
    ConsoleErrorsAndWarnings recorded_errors recorded_warnings st
    = Returned tt (with_actions (actions st ++ printed) st)
    /\ printed
       = match recorded_errors with
         | [] => []
         | _ :: _ =>
             ConsoleLog ([10%N] ++ js "Errors:")
             :: numbered_from_zero (js "Error") recorded_errors
         end
         ++ match recorded_warnings with
            | [] => []
            | _ :: _ =>
                ConsoleLog ([10%N] ++ js "Warnings:")
                :: numbered_from_zero (js "Warning") recorded_warnings
            end
    /\ List.length printed
       = match recorded_errors with [] => 0 | _ => S (List.length recorded_errors) end
         + match recorded_warnings with [] => 0 | _ => S (List.length recorded_warnings) end
    /\ (forall k msg, nth_error recorded_errors k = Some msg ->
          In (ConsoleLog ([9%N] ++ js "Error" ++ js " #" ++ Number_toString k
                          ++ js ": " ++ msg)) printed)
    /\ (forall k msg, nth_error recorded_warnings k = Some msg ->
          In (ConsoleLog ([9%N] ++ js "Warning" ++ js " #" ++ Number_toString k
                          ++ js ": " ++ msg)) printed)
    /\ (ConsoleErrorsAndWarnings recorded_errors recorded_warnings ;;
        ConsoleErrorsAndWarnings recorded_errors recorded_warnings) st
       = Returned tt (with_actions (actions st ++ printed ++ printed) st).
Proof.
  exists (diagnostics_output recorded_errors recorded_warnings).
  destruct (diagnostics_output_lines recorded_errors recorded_warnings)
    as (Hlen & Herr & Hwarn).
  split; [reflexivity|].
  split; [exact (diagnostics_output_printed recorded_errors recorded_warnings)|].
  split; [exact Hlen|].
  split; [exact Herr|]. split; [exact Hwarn|].
  unfold bind, ConsoleErrorsAndWarnings, modify, with_actions.
  cbn [actions aspr_data next_page_link page_count errors warnings cited_by_download].
  now rewrite <- app_assoc.
Qed.

(** Two errors and one warning: five lines, errors first. *)
Example diagnostics_two_errors_one_warning :
  diagnostics_output [js "a"; js "b"] [js "c"]
  = [ ConsoleLog ([10%N] ++ js "Errors:")
    ; ConsoleLog ([9%N] ++ js "Error #0: a")
    ; ConsoleLog ([9%N] ++ js "Error #1: b")
    ; ConsoleLog ([10%N] ++ js "Warnings:")
    ; ConsoleLog ([9%N] ++ js "Warning #0: c") ].
Proof. reflexivity. Qed.

(** ** [NormalizeEncoding] on text without U+221A, and the length of its result *)

Lemma replace_pair_length a b c s :
  List.length (replace_all [a; b] [c] s) <= List.length s.
Proof.
  induction s as [| x | x y t IHyt IHt] using list_pair_ind.
  - reflexivity.
  - now rewrite replace_pair_single.
  - rewrite replace_pair_cons2.
    destruct ((a =? x)%N && (b =? y)%N); cbn [app List.length] in *; lia.
Qed.

Lemma apply_rules_length rules :
  forallb repair_shape rules = true ->
  forall s, List.length (apply_rules rules s) <= List.length s.
Proof.
  induction rules as [|rule rules IH]; intros H s; [reflexivity|].
  cbn [forallb] in H. apply andb_true_iff in H as [Hrule Hrules].
  apply repair_shape_inv in Hrule as (b & c & -> & _).
  rewrite apply_rules_cons. cbn [fst snd].
  etransitivity; [apply (IH Hrules) | apply replace_pair_length].
Qed.

Lemma trim_start_length s : List.length (trim_start s) <= List.length s.
Proof.
  induction s as [|c s IH]; [reflexivity|]. cbn [trim_start].
  destruct (is_white_space c); cbn [List.length]; lia.
Qed.

(** X2.  The replacements of [NormalizeEncoding] never lengthen the text
    they are applied to: the result has at most as many code units as the
    trimmed and composed text.  Trimming does not lengthen the input either;
    about canonical composition, which can lengthen a text, nothing is
    said.  When the trimmed and composed text holds no U+221A no rule
    applies: the result is that text. *)
Theorem NormalizeEncoding_shortens_or_keeps (nfc : JSString -> JSString) (text : JSString) :
  List.length (NormalizeEncoding nfc text) <= List.length (nfc (trim text))
  /\ List.length (trim text) <= List.length text
  /\ (existsb (N.eqb 0x221a) (nfc (trim text)) = false ->
      NormalizeEncoding nfc text = nfc (trim text)).
Proof.
  split; [|split].
  - unfold NormalizeEncoding. now apply apply_rules_length.
  - unfold trim, trim_end. rewrite length_rev.
    etransitivity; [apply trim_start_length|]. rewrite length_rev.
    apply trim_start_length.
  - intro Hclean. unfold NormalizeEncoding. apply apply_rules_fixed.
    intros rule Hin.
    assert (Hshape : repair_shape rule = true).
    { assert (Hall : forallb repair_shape encoding_repairs = true) by reflexivity.
      rewrite forallb_forall in Hall. now apply Hall. }
    apply repair_shape_inv in Hshape as (b & c & -> & _).
    now apply occurs_without_first_unit.
Qed.

(** "  Plain title " holds no U+221A: it is trimmed and nothing else. *)
Lemma NormalizeEncoding_shortens_or_keeps_witness :
  NormalizeEncoding NFC_of_composed_text (js "  Plain title ") = js "Plain title".
Proof.
  apply (proj2 (proj2 (NormalizeEncoding_shortens_or_keeps NFC_of_composed_text
                         (js "  Plain title ")))).
  vm_compute. reflexivity.
Defined.

(** ** One row *)

Lemma collect_row_returned (nfc : JSString -> JSString) (row : Row) (st : State)
    (a : Anchor) (d n : JSString) :
  title_link row = Some a -> date_span row = Some d -> citation_number row = Some n ->
  exists st' abstract link,
    collect_row nfc row st = Returned tt st'
    /\ aspr_data st'
       = aspr_data st
         ++ [[ (js "title", NormalizeEncoding nfc (anchor_text a))
             ; (js "authors",
                NormalizeEncoding nfc (join (js ", ") (map trim (author_links row))))
             ; (js "published_online_date", trim d)
             ; (js "cited_by_count", trim n)
             ; (js "abstract", abstract)
             ; (js "article_link", anchor_href a)
             ; (js "all_citing_papers_link", link) ]]
    /\ abstract
       = match abstract_toggle row, abstract_region row with
         | Some _, Some text => NormalizeEncoding nfc text
         | _, _ => js "N/A"
         end
    /\ link
       = match citation_dialog_link row with
         | None => js "N/A"
         | Some _ =>
             match citation_dialog_effect row (cited_by_download st) with
             | Some url => url
             | None => js "N/A"
             end
         end
    /\ errors st' = errors st
    /\ List.length (warnings st')
       = List.length (warnings st)
         + (if abstract_missing row then 1 else 0)
         + (if citing_link_missing row (cited_by_download st) then 1 else 0).
Proof.
  intros Ha Hd Hn.
  unfold collect_row, deref, bind, ret. rewrite Ha, Hd, Hn.
  unfold RetrieveAbstract, RetrieveCitingPapersLink, bind, ret, get,
    emit, push_warning, push_record, modify, abstract_missing, citing_link_missing.
  destruct (abstract_toggle row) as [button|];
    [destruct (abstract_region row) as [text|]|];
    (destruct (citation_dialog_link row) as [trigger|];
     [cbn [cited_by_download with_actions with_warnings with_cited_by_download];
      destruct (citation_dialog_effect row (cited_by_download st)) as [url|]|]);
    do 3 eexists; (split; [reflexivity|]);
    cbn [aspr_data errors warnings with_aspr_data with_actions with_warnings
         with_cited_by_download];
    repeat split; rewrite ?length_app; cbn [List.length]; lia.
Qed.

(** X3.  A row gives a record exactly when its title link, its date and its
    citation number are found.  If one of them is missing the row throws
    before anything is written, whatever else the row holds.  Otherwise one
    record is appended: title and authors normalized, date and count
    trimmed, the link as it is; the abstract and the link to the citing
    papers are "N/A" when their control or what it reveals is missing, with
    one warning each and no error. *)
Theorem row_gives_record_or_throws_untouched (nfc : JSString -> JSString)
    (row : Row) (st : State) :
  (row_complete row = false -> collect_row nfc row st = Threw st)
  /\ (forall a d n,
        title_link row = Some a -> date_span row = Some d ->
        citation_number row = Some n ->
        exists st' abstract link,
          collect_row nfc row st = Returned tt st'
          /\ aspr_data st'
             = aspr_data st
               ++ [[ (js "title", NormalizeEncoding nfc (anchor_text a))
                   ; (js "authors",
                      NormalizeEncoding nfc
                        (join (js ", ") (map trim (author_links row))))
                   ; (js "published_online_date", trim d)
                   ; (js "cited_by_count", trim n)
                   ; (js "abstract", abstract)
                   ; (js "article_link", anchor_href a)
                   ; (js "all_citing_papers_link", link) ]]
          /\ abstract
             = match abstract_toggle row, abstract_region row with
               | Some _, Some text => NormalizeEncoding nfc text
               | _, _ => js "N/A"
               end
          /\ link
             = match citation_dialog_link row with
               | None => js "N/A"
               | Some _ =>
                   match citation_dialog_effect row (cited_by_download st) with
                   | Some url => url
                   | None => js "N/A"
                   end
               end
          /\ errors st' = errors st
          /\ List.length (warnings st')
             = List.length (warnings st)
               + (if abstract_missing row then 1 else 0)
               + (if citing_link_missing row (cited_by_download st) then 1 else 0)).
Proof.
  split.
  - intro Hincomplete. pose proof (collect_row_spec nfc row st) as Hspec.
    destruct (collect_row nfc row st) as [[] st'|st'].
    + destruct Hspec as [Hcomplete _]. congruence.
    + now destruct Hspec as [_ ->].
  - intros a d n. apply collect_row_returned.
Qed.

(** ** How the loop was left *)

Lemma collect_loop_exit (nfc : JSString -> JSString) cc world fuel :
  forall st exit st',
    collect_loop nfc fuel cc world st = Some (Returned exit st') ->
    match exit with
    | ConditionFalse => st' = st /\ cc <= List.length (aspr_data st)
    | QuotaMet => cc <= List.length (aspr_data st')
    | NoNextLink =>
        List.length (aspr_data st') < cc
        /\ next_page_link st' = None
        /\ exists earlier, errors st' = earlier ++ [next_link_error (page_count st')]
    end.
Proof.
  induction fuel as [|fuel IH]; intros st exit st' H.
  - cbn [collect_loop] in H.
    destruct (List.length (aspr_data st) <? cc) eqn:Hc; [discriminate|].
    injection H as <- <-. apply Nat.ltb_ge in Hc. now split.
  - rewrite collect_loop_S in H.
    destruct (List.length (aspr_data st) <? cc) eqn:Hc.
    + rewrite loop_body_unfold in H.
      destruct (collect_aspr_page_data nfc cc (world (page_count st)) st)
        as [[] st1|st1]; [|discriminate].
      destruct (cc <=? List.length (aspr_data st1)) eqn:Hq.
      * injection H as <- <-. now apply Nat.leb_le.
      * apply Nat.leb_gt in Hq.
        destruct (next_page_link st1) as [link|] eqn:Hlink.
        -- specialize (IH _ _ _ H). destruct exit; [|exact IH|exact IH].
           destruct IH as [_ Hfull].
           cbn [aspr_data with_page_count with_actions] in Hfull. lia.
        -- injection H as <- <-.
           cbn [aspr_data next_page_link errors page_count with_errors].
           split; [exact Hq|]. split; [exact Hlink|]. now exists (errors st1).
    + injection H as <- <-. apply Nat.ltb_ge in Hc. now split.
Qed.

(** X4.  What the way out of the loop says about a run that returns: left on
    a met quota, it holds exactly [collection_count] records; left for want
    of a next-page link, it holds fewer, no link is held, and the last error
    is the one of line 28 with the final page count; the loop is never
    entered only for quota 0, and then the document is not read at all. *)
Theorem exit_tells_the_record_count (nfc : JSString -> JSString) (fuel : nat)
    (collection_count : nat) (world : nat -> Document) (overlay : option JSString)
    (exit : LoopExit) (st : State) :
  automate_aspr nfc fuel collection_count world overlay = Some (Returned exit st) ->
  match exit with
  | ConditionFalse =>
      collection_count = 0
      /\ actions st
         = [ConsoleClear; ConsoleLogRecords [];
            ConsoleWarn (js "No data available to download.")]
  | QuotaMet => List.length (aspr_data st) = collection_count
  | NoNextLink =>
      List.length (aspr_data st) < collection_count
      /\ next_page_link st = None
      /\ exists earlier,
           errors st
           = earlier ++ [js "Next page link not found on page "
                         ++ Number_toString (page_count st) ++ js "."]
  end.
Proof.
  intro H. apply automate_aspr_ended in H as (left & _ & Hext & Hloop & ->).
  apply collect_loop_exit in Hloop.
  destruct Hext as (more & Hdata & _ & Hlen). cbn in Hdata, Hlen.
  destruct exit; cbn [aspr_data next_page_link errors page_count with_actions].
  - destruct Hloop as [-> Hfull]. cbn in Hfull. split; [lia | reflexivity].
  - rewrite Hdata in *. lia.
  - exact Hloop.
Qed.

(** Scenario D ends for want of a link on its fourth page, with three of
    the ten records. *)
Lemma exit_tells_the_record_count_witness :
  exists st,
    automate_aspr NFC_of_composed_text 10 10 scenario_D None
    = Some (Returned NoNextLink st)
    /\ List.length (aspr_data st) < 10
    /\ next_page_link st = None
    /\ exists earlier,
         errors st
         = earlier ++ [js "Next page link not found on page "
                       ++ Number_toString (page_count st) ++ js "."].
Proof.
  eexists. split; [vm_compute; reflexivity|].
  apply (@exit_tells_the_record_count NFC_of_composed_text 10 10 scenario_D None
           NoNextLink).
  vm_compute. reflexivity.
Defined.

(** ** A row that throws *)

Lemma collect_rows_threw (nfc : JSString -> JSString) cc rows : forall st st',
  collect_rows nfc cc rows st = Threw st' ->
  List.length (aspr_data st') < cc
  /\ exists row, In row rows /\ row_complete row = false.
Proof.
  induction rows as [|row rows IH]; intros st st' H; [discriminate|].
  rewrite collect_rows_cons in H.
  destruct (cc <=? List.length (aspr_data st)) eqn:Hq; [discriminate|].
  pose proof (collect_row_spec nfc row st) as Hrow.
  destruct (collect_row nfc row st) as [[] st1|st1].
  - destruct (IH _ _ H) as (Hlen & r & Hin & Hr).
    split; [exact Hlen|]. exists r. split; [now right | exact Hr].
  - destruct Hrow as [Hincomplete ->]. injection H as <-.
    apply Nat.leb_gt in Hq. split; [exact Hq|].
    exists row. split; [now left | exact Hincomplete].
Qed.

Lemma page_threw (nfc : JSString -> JSString) cc document st st' :
  collect_aspr_page_data nfc cc document st = Threw st' ->
  List.length (aspr_data st') < cc
  /\ page_count st' = page_count st
  /\ exists view row,
       document = Some view /\ In row (result_rows view)
       /\ row_complete row = false.
Proof.
  intro H. pose proof (page_extends nfc cc document st) as [_ Hpage].
  rewrite H in Hpage. cbn [outcome_state] in Hpage.
  destruct document as [[[link|] [|row rows]]|]; try discriminate H.
  rewrite page_rows_present in H.
  apply collect_rows_threw in H as (Hlen & r & Hin & Hr).
  split; [exact Hlen|]. split; [exact Hpage|]. eauto.
Qed.

Lemma collect_loop_threw (nfc : JSString -> JSString) cc world fuel : forall st st',
  collect_loop nfc fuel cc world st = Some (Threw st') ->
  List.length (aspr_data st') < cc
  /\ exists view row,
       world (page_count st') = Some view /\ In row (result_rows view)
       /\ row_complete row = false.
Proof.
  induction fuel as [|fuel IH]; intros st st' H.
  - cbn [collect_loop] in H.
    destruct (List.length (aspr_data st) <? cc); discriminate.
  - rewrite collect_loop_S in H.
    destruct (List.length (aspr_data st) <? cc); [|discriminate].
    rewrite loop_body_unfold in H.
    destruct (collect_aspr_page_data nfc cc (world (page_count st)) st)
      as [[] st1|st1] eqn:Hpage.
    + destruct (cc <=? List.length (aspr_data st1)); [discriminate|].
      destruct (next_page_link st1); [now apply IH in H | discriminate].
    + injection H as <-.
      apply page_threw in Hpage as (Hlen & Hcount & view & row & Hdoc & Hin & Hr).
      split; [exact Hlen|]. exists view, row. now rewrite Hcount.
Qed.

(** X5.  A run ends by a throw only at a row of the current page whose title
    link, date or citation number is missing, and below the quota.  Such a
    run has then logged no record list, saved no file and given no notice:
    after the clearing of the console its actions are diagnostics, clicks
    and delays only, and the records read before the throw are in no
    output. *)
Theorem throw_leaves_nothing_exported (nfc : JSString -> JSString) (fuel : nat)
    (collection_count : nat) (world : nat -> Document) (overlay : option JSString)
    (st : State) :
  automate_aspr nfc fuel collection_count world overlay = Some (Threw st) ->
  (exists view row,
     world (page_count st) = Some view /\ In row (result_rows view)
     /\ row_complete row = false)
  /\ List.length (aspr_data st) < collection_count
  /\ exists done,
       actions st = ConsoleClear :: done
       /\ forallb in_loop_action done = true.
Proof.
  unfold automate_aspr, collect_aspr_data, emit, modify.
  set (st0 := with_actions (actions (initial_state overlay) ++ [ConsoleClear])
                (initial_state overlay)).
  destruct (collect_loop nfc fuel collection_count world st0)
    as [[exit left|left]|] eqn:Hloop;
    [unfold bind; rewrite finish_spec; discriminate | | discriminate].
  intro H. injection H as <-.
  pose proof Hloop as Hprogress.
  apply collect_loop_progress in Hprogress as (_ & _ & done & Hdone & Hall & _).
  apply collect_loop_threw in Hloop as [Hlen Hrow].
  split; [exact Hrow|]. split; [exact Hlen|].
  exists done. split; [exact Hdone | exact Hall].
Qed.

(** The second of three rows has no date: the run throws there with one
    record read, and nothing is exported. *)
Lemma throw_leaves_nothing_exported_witness :
  exists st,
    automate_aspr NFC_of_composed_text 3 5 scenario_broken_row None = Some (Threw st)
    /\ List.length (aspr_data st) = 1
    /\ exists done,
         actions st = ConsoleClear :: done
         /\ forallb in_loop_action done = true.
Proof.
  eexists. split; [vm_compute; reflexivity|]. split; [reflexivity|].
  apply (@throw_leaves_nothing_exported NFC_of_composed_text 3 5
           scenario_broken_row None).
  vm_compute. reflexivity.
Defined.

(** ** Page changes *)




(** ** The file of a run *)

(** X7.  A run that returns with at least one record saves, as its last
    action before the diagnostics, the file "apsr_results.csv": U+FEFF, the
    header line
    "title,authors,published_online_date,cited_by_count,abstract,article_link,all_citing_papers_link",
    and one line of seven quoted values per record, in the order of the
    records. *)
Theorem exported_file_has_fixed_header (nfc : JSString -> JSString) (fuel : nat)
    (collection_count : nat) (world : nat -> Document) (overlay : option JSString)
    (exit : LoopExit) (st : State) :
  automate_aspr nfc fuel collection_count world overlay = Some (Returned exit st) ->
  aspr_data st <> [] ->
  (exists before,
     actions st
     = before
       ++ [SaveFile (js "apsr_results.csv")
             ([0xfeff%N]
              ++ js "title,authors,published_online_date,cited_by_count,abstract,article_link,all_citing_papers_link"
              ++ [10%N]
              ++ join [10%N] (map csv_row (aspr_data st)))]
       ++ diagnostics_output (errors st) (warnings st))
  /\ Forall (fun record =>
               List.length (map quoted (Object_values record)) = 7)
            (aspr_data st).
Proof.
  intros H Hrecords.
  pose proof (automate_aspr_records _ _ _ _ _ H) as [Hkeys _].
  cbn [outcome_state] in Hkeys.
  apply automate_aspr_ended in H as (left & _ & _ & _ & ->).
  cbn [aspr_data errors warnings actions with_actions] in *.
  split.
  - destruct (aspr_data left) as [|first rest] eqn:Hdata; [congruence|].
    exists (actions left ++ [ConsoleLogRecords (first :: rest)]).
    unfold closing_actions. rewrite Hdata. unfold export_output, csv_content.
    apply Forall_inv in Hkeys. unfold has_record_keys in Hkeys. rewrite Hkeys.
    rewrite <- !app_assoc. reflexivity.
  - eapply Forall_impl; [|exact Hkeys].
    intros record Hrecord. unfold has_record_keys, Object_keys in Hrecord.
    unfold Object_values. rewrite !length_map, <- (length_map fst), Hrecord.
    reflexivity.
Qed.

(** Scenario A saves three lines under the header. *)
Lemma exported_file_has_fixed_header_witness :
  exists st,
    automate_aspr NFC_of_composed_text 5 3 scenario_A None = Some (Returned QuotaMet st)
    /\ List.length (aspr_data st) = 3
    /\ Forall (fun record =>
                 List.length (map quoted (Object_values record)) = 7)
              (aspr_data st).
Proof.
  eexists. split; [vm_compute; reflexivity|]. split; [reflexivity|].
  apply (@exported_file_has_fixed_header NFC_of_composed_text 5 3 scenario_A None
           QuotaMet).
  - vm_compute. reflexivity.
  - vm_compute. discriminate.
Defined.

(** ** Every diagnostic is printed *)

(** X9.  Over a run that returns, errors and warnings are only appended to,
    and each one held at the end has been printed with its final index by
    the actions of the run ("<tab>Error #k: msg", "<tab>Warning #k: msg"). *)
Theorem recorded_diagnostics_are_printed (nfc : JSString -> JSString) (fuel : nat)
    (collection_count : nat) (world : nat -> Document) (st : State)
    (exit : LoopExit) (st' : State) :
  collect_aspr_data nfc fuel collection_count world st = Some (Returned exit st') ->
  (exists more, errors st' = errors st ++ more)
  /\ (exists more, warnings st' = warnings st ++ more)
  /\ exists new,
       actions st' = actions st ++ new
       /\ (forall k msg, nth_error (errors st') k = Some msg ->
             In (ConsoleLog ([9%N] ++ js "Error" ++ js " #" ++ Number_toString k
                             ++ js ": " ++ msg)) new)
       /\ (forall k msg, nth_error (warnings st') k = Some msg ->
             In (ConsoleLog ([9%N] ++ js "Warning" ++ js " #" ++ Number_toString k
                             ++ js ": " ++ msg)) new).
Proof.
  intro H. apply collect_aspr_data_returned in H as (left & Hloop & ->).
  apply collect_loop_progress in Hloop as (Herr & Hwarn & done & Hdone & _ & _).
  cbn [outcome_state errors warnings actions with_actions] in *.
  split; [exact Herr|]. split; [exact Hwarn|].
  exists (done ++ closing_actions left). rewrite Hdone, app_assoc.
  destruct (diagnostics_output_lines (errors left) (warnings left))
    as (_ & Hprinted_errors & Hprinted_warnings).
  split; [reflexivity|].
  split; intros k msg Hk; apply in_or_app; right; unfold closing_actions;
    apply in_or_app; right; apply in_or_app; right;
    [exact (Hprinted_errors k msg Hk) | exact (Hprinted_warnings k msg Hk)].
Qed.

(** Without a container on the first page both errors are printed. *)
Lemma recorded_diagnostics_are_printed_witness :
  exists st',
    collect_aspr_data NFC_of_composed_text 1 1 scenario_no_container (initial_state None)
    = Some (Returned NoNextLink st')
    /\ errors st'
       = [js "Selector #maincontent NOT found."; js "Next page link not found on page 0."]
    /\ exists new,
         actions st' = actions (initial_state None) ++ new
         /\ (forall k msg, nth_error (errors st') k = Some msg ->
               In (ConsoleLog ([9%N] ++ js "Error" ++ js " #" ++ Number_toString k
                               ++ js ": " ++ msg)) new)
         /\ (forall k msg, nth_error (warnings st') k = Some msg ->
               In (ConsoleLog ([9%N] ++ js "Warning" ++ js " #" ++ Number_toString k
                               ++ js ": " ++ msg)) new).
Proof.
  eexists. split; [vm_compute; reflexivity|]. split; [reflexivity|].
  apply (@recorded_diagnostics_are_printed NFC_of_composed_text 1 1
           scenario_no_container (initial_state None) NoNextLink).
  vm_compute. reflexivity.
Defined.

(** ** A first page that holds enough rows *)




